(** * xskillscore.core.probabilistic: the dimension-aware scoring adapter

    A shallow embedding of [src/xskillscore/core/probabilistic.py].  The
    five public operations ([crps_gaussian], [crps_quadrature],
    [crps_ensemble], [brier_score], [threshold_brier_score]) are translated
    line by line.  What they call from xarray, numpy and properscoring is
    not part of the repository; the modules [np], [xr] and [properscoring]
    below give those calls an executable meaning over exact rationals. *)

From Stdlib Require Import ZArith QArith Qcanon List String Sorted Permutation Lia.
From stdpp Require Import base gmap strings list.
From stdpp Require sorting.

Local Open Scope string_scope.
Local Open Scope list_scope.

(** ** Floating point values

    A cell holds a number or NaN.  Numbers are exact rationals: rounding is
    not modelled. *)

Inductive fval : Type :=
| NaN
| Fin (q : Qc).

Definition Qc_of_Z (z : Z) : Qc := Q2Qc (inject_Z z).
Definition Qc_of_nat (n : nat) : Qc := Qc_of_Z (Z.of_nat n).

Definition Qc_eqb (a b : Qc) : bool := if Qc_eq_dec a b then true else false.
Definition Qc_leb (a b : Qc) : bool := if Qclt_le_dec b a then false else true.
Definition Qc_ltb (a b : Qc) : bool := if Qclt_le_dec a b then true else false.

Definition isnan (x : fval) : bool :=
  match x with NaN => true | Fin _ => false end.

(** ** Exceptions

    The exceptions the module can end with.  All but [AttributeError] are
    [ValueError] in Python; the constructor records which check raised it. *)

Inductive exn : Type :=
| MissingDimensionError (ds : list string)
    (* apply_ufunc: a required core dimension is absent on an operand *)
| ShapeError (d : string)
    (* mismatched lengths for dimension [d] *)
| UnexpectedDimensionError (ds : list string)
    (* apply_ufunc: an operand carries a dimension that is core elsewhere *)
| InvalidThresholdError
    (* raised by threshold_brier_score itself, lines 313 and 322 *)
| ReduceDimensionError (d : string)
    (* mean over a dimension the object does not have *)
| WeightsError
    (* weighted(): weights contain missing values *)
| KernelComputationError (msg : string)
    (* raised inside a properscoring kernel *)
| DatasetJoinError
    (* apply_ufunc: Dataset operands with different data variables *)
| AttributeError (attr : string).

Inductive result (A : Type) : Type :=
| Ok (a : A)
| Err (e : exn).
Arguments Ok {A} a.
Arguments Err {A} e.

#[global] Instance result_ret : MRet result := fun _ a => Ok a.
#[global] Instance result_bind : MBind result := fun _ _ f m =>
  match m with
  | Ok a => f a
  | Err e => Err e
  end.

Fixpoint mapM {A B : Type} (f : A -> result B) (l : list A) : result (list B) :=
  match l with
  | [] => Ok []
  | a :: l' => b ← f a; bs ← mapM f l'; Ok (b :: bs)
  end.


(** ** Named indexing *)

Definition env : Type := string -> nat.

Definition upd (e : env) (d : string) (i : nat) : env :=
  fun x => if String.eqb x d then i else e x.

Fixpoint env_of (ns : list string) (idx : list nat) (d : string) : nat :=
  match ns, idx with
  | n :: ns', i :: idx' => if String.eqb d n then i else env_of ns' idx' d
  | _, _ => 0%nat
  end.

(** Every index combination of the dimensions [ds], the other names read
    from [e]; the last dimension varies fastest, as in row-major order. *)
Fixpoint cells (ds : list (string * nat)) (e : env) : list env :=
  match ds with
  | [] => [e]
  | (d, n) :: ds' => flat_map (fun i => cells ds' (upd e d i)) (seq 0 n)
  end.

Definition mem (d : string) (ns : list string) : bool :=
  existsb (String.eqb d) ns.

(** ** Labeled arrays

    A [DataArray] has an ordered tuple of named dimensions with their
    lengths, values addressed by position, integer coordinate labels per
    dimension and free-form attributes.  A [Dataset] is a container of
    named arrays with attributes of its own. *)

Record DataArray : Type := mkDataArray {
  dims : list (string * nat);
  data : list nat -> fval;
  coords : gmap string (list Z);
  attrs : gmap string string
}.

Record Dataset : Type := mkDataset {
  data_vars : list (string * DataArray);
  ds_attrs : gmap string string
}.

Inductive xobj : Type :=
| XArr (a : DataArray)
| XSet (d : Dataset).

Definition names (a : DataArray) : list string := (dims a).*1.

(** The value of [a] at the cell that [e] names. *)
Definition read (a : DataArray) (e : env) : fval :=
  data a (map e (names a)).

(** An array over [ds] whose cell at [e] holds [f e]. *)
Definition build (ds : list (string * nat)) (f : env -> fval)
    (cs : gmap string (list Z)) (ats : gmap string string) : DataArray :=
  {| dims := ds; data := fun idx => f (env_of ds.*1 idx);
     coords := cs; attrs := ats |}.

Fixpoint lookup_dim (d : string) (ds : list (string * nat)) : option nat :=
  match ds with
  | [] => None
  | (d', n) :: ds' => if String.eqb d d' then Some n else lookup_dim d ds'
  end.

Definition ds_names (d : Dataset) : list string :=
  flat_map (fun v => names v.2) (data_vars d).

(** [obj.dims]: the names an xarray object answers [in] for. *)
Definition xdims (x : xobj) : list string :=
  match x with
  | XArr a => names a
  | XSet d => ds_names d
  end.

(** ** Python values reaching the module *)

Definition loc : Type := positive.

Inductive pyval : Type :=
| PyNone
| PyBool (b : bool)
| PyInt (z : Z)
| PyFloat (x : fval)
| PyStr (s : string)
| PyTuple (xs : list Qc)
| PyList (l : loc)            (* a reference to a list object on the heap *)
| PyCallable (id : nat)       (* a cdf or scipy distribution, opaque *)
| PyXr (x : xobj).

(** The list objects of the caller, by address.  A list holds scalars. *)
Abbreviation heap := (gmap loc (list Qc)).

(** [isinstance(v, (int, float))]; [bool] is a subclass of [int]. *)
Definition isinstance_int_float (v : pyval) : bool :=
  match v with
  | PyBool _ | PyInt _ | PyFloat _ => true
  | _ => false
  end.

(** [isinstance(v, list)]. *)
Definition isinstance_list (v : pyval) : bool :=
  match v with
  | PyList _ => true
  | _ => false
  end.

(** [isinstance(v, (xr.DataArray, xr.Dataset))]. *)
Definition isinstance_xr (v : pyval) : bool :=
  match v with
  | PyXr _ => true
  | _ => false
  end.

(** The number a Python scalar stands for. *)
Definition float_of (v : pyval) : fval :=
  match v with
  | PyBool b => Fin (Qc_of_Z (Z.b2z b))
  | PyInt z => Fin (Qc_of_Z z)
  | PyFloat x => x
  | _ => NaN
  end.

(** ** Python and numpy primitives *)

Module py.

Fixpoint insert_sorted (x : Qc) (l : list Qc) : list Qc :=
  match l with
  | [] => [x]
  | y :: l' => if Qc_leb x y then x :: l else y :: insert_sorted x l'
  end.

(** The contents of a list of numbers after [list.sort()]. *)
Definition sort (l : list Qc) : list Qc := fold_right insert_sorted [] l.

End py.

Module np.

(** [np.arange(lo, lo + n)]. *)
Definition arange (lo n : nat) : list Z := map Z.of_nat (seq lo n).

Definition finite (l : list fval) : list Qc :=
  omap (fun x => match x with Fin q => Some q | NaN => None end) l.

Definition sum (l : list Qc) : Qc := fold_right Qcplus (Qc_of_Z 0) l.

(** [np.nanmean]: the mean of the numbers, NaN when there are none. *)
Definition nanmean (l : list fval) : fval :=
  match finite l with
  | [] => NaN
  | vs => Fin (sum vs / Qc_of_nat (length vs))
  end.

Definition fval_leb (x y : fval) : bool :=
  match x, y with
  | _, NaN => true
  | NaN, Fin _ => false
  | Fin a, Fin b => Qc_leb a b
  end.

Fixpoint insert_sorted (x : fval) (l : list fval) : list fval :=
  match l with
  | [] => [x]
  | y :: l' => if fval_leb x y then x :: l else y :: insert_sorted x l'
  end.

(** [np.sort] along the last axis; NaN sorts last. *)
Definition sort (l : list fval) : list fval := fold_right insert_sorted [] l.

End np.

(** ** The parts of xarray the module calls *)

Inductive operand : Type :=
| OArr (a : DataArray)
| OSet (d : Dataset)
| OVal (v : pyval).

(** What a kernel receives for an operand at one broadcast cell: a number,
    the vector along the operand's core dimensions, or a value passed
    through untouched. *)
Inductive karg : Type :=
| KNum (x : fval)
| KVec (xs : list fval)
| KObj (v : pyval).

Module xr.

(** [xr.DataArray(v)] for a scalar. *)
Definition DataArray0 (v : pyval) : DataArray :=
  build [] (fun _ => float_of v) ∅ ∅.

(** [xr.DataArray(l, dims=d)] for a list of numbers. *)
Definition DataArray1 (l : list Qc) (d : string) : DataArray :=
  build [(d, length l)] (fun e => nth (e d) (map Fin l) NaN) ∅ ∅.

(** [a[d] = labels]. *)
Definition assign_coord (a : DataArray) (d : string) (labels : list Z)
    : DataArray :=
  {| dims := dims a; data := data a;
     coords := <[d := labels]> (coords a); attrs := attrs a |}.

(** Lengths of [ds] merged into [acc]; a name seen before must have the
    length it had. *)
Fixpoint unify (acc ds : list (string * nat)) : result (list (string * nat)) :=
  match ds with
  | [] => Ok acc
  | (d, n) :: ds' =>
      match lookup_dim d acc with
      | Some m => if Nat.eqb n m then unify acc ds' else Err (ShapeError d)
      | None => unify (acc ++ [(d, n)]) ds'
      end
  end.

Fixpoint unified_dim_sizes (acc : list (string * nat)) (arrs : list DataArray)
    : result (list (string * nat)) :=
  match arrs with
  | [] => Ok acc
  | a :: arrs' => acc' ← unify acc (dims a); unified_dim_sizes acc' arrs'
  end.

Definition restrict_coords (ns : list string) (cs : gmap string (list Z))
    : gmap string (list Z) :=
  filter (fun kv => mem kv.1 ns = true) cs.

(** The coordinate labels of [a] along its own dimensions. *)
Definition dim_coords (a : DataArray) : gmap string (list Z) :=
  restrict_coords (names a) (coords a).

Definition arrays_of (x : xobj) : list DataArray :=
  match x with
  | XArr a => [a]
  | XSet d => (data_vars d).*2
  end.

Definition coords_of (x : xobj) : gmap string (list Z) :=
  fold_right (fun a cs => dim_coords a ∪ cs) ∅ (arrays_of x).

(** [x] with every array set to the dimensions [ds]. *)
Definition set_dims (ds : list (string * nat)) (cs : gmap string (list Z))
    (x : xobj) : xobj :=
  match x with
  | XArr a => XArr (build ds (read a) cs (attrs a))
  | XSet d =>
      XSet {| data_vars :=
                map (fun nv => (nv.1, build ds (read nv.2) cs (attrs nv.2)))
                    (data_vars d);
              ds_attrs := ds_attrs d |}
  end.

(** [xr.broadcast(a, b)]: both objects over the dimensions of [a]
    followed by the new ones of [b]. *)
Definition broadcast (a b : xobj) : result (xobj * xobj) :=
  ds ← unified_dim_sizes [] (arrays_of a ++ arrays_of b);
  let cs := coords_of a ∪ coords_of b in
  Ok (set_dims ds cs a, set_dims ds cs b).

Definition arrays (args : list operand) : list DataArray :=
  omap (fun o => match o with OArr a => Some a | _ => None end) args.

Definition absent (ns ds : list string) : list string :=
  List.filter (fun d => negb (mem d ns)) ds.

(** Core dimensions an operand is required to have and does not. *)
Fixpoint missing_core_dims (args : list operand) (icd : list (list string))
    : list string :=
  match args, icd with
  | OArr a :: args', core :: icd' =>
      absent (names a) core ++ missing_core_dims args' icd'
  | _ :: args', _ :: icd' => missing_core_dims args' icd'
  | _, _ => []
  end.

(** Dimensions of an operand that are neither broadcast dimensions nor
    core dimensions of that operand. *)
Fixpoint unexpected_dims (bnames : list string) (args : list operand)
    (icd : list (list string)) : list string :=
  match args, icd with
  | OArr a :: args', core :: icd' =>
      absent (bnames ++ core) (names a) ++ unexpected_dims bnames args' icd'
  | _ :: args', _ :: icd' => unexpected_dims bnames args' icd'
  | _, _ => []
  end.

Definition with_sizes (sizes : list (string * nat)) (ns : list string)
    : list (string * nat) :=
  map (fun d => (d, default 0%nat (lookup_dim d sizes))) ns.

(** What the kernel is handed at cell [e]. *)
Definition gather (sizes : list (string * nat)) (e : env) (o : operand)
    (core : list string) : karg :=
  match o with
  | OArr a =>
      match core with
      | [] => KNum (read a e)
      | _ => KVec (map (read a) (cells (with_sizes sizes core) e))
      end
  | OSet _ => KObj PyNone
  | OVal v => KObj v
  end.

Fixpoint gather_all (sizes : list (string * nat)) (e : env)
    (args : list operand) (icd : list (list string)) : list karg :=
  match args, icd with
  | o :: args', core :: icd' =>
      gather sizes e o core :: gather_all sizes e args' icd'
  | _, _ => []
  end.

(** The output cell at [e] of what the kernel returned. *)
Definition pick (ocd : list string) (e : env) (r : result karg) : fval :=
  match r with
  | Ok (KNum x) => x
  | Ok (KVec xs) =>
      match ocd with
      | [c] => nth (e c) xs NaN
      | _ => NaN
      end
  | _ => NaN
  end.

Fixpoint first_error {A : Type} (rs : list (result A)) : option exn :=
  match rs with
  | [] => None
  | Ok _ :: rs' => first_error rs'
  | Err e :: _ => Some e
  end.

Definition first_attrs (keep_attrs : bool) (args : list operand)
    : gmap string string :=
  match args with
  | OArr a :: _ => if keep_attrs then attrs a else ∅
  | _ => ∅
  end.

Definition all_coords (args : list operand) : gmap string (list Z) :=
  fold_right (fun a cs => dim_coords a ∪ cs) ∅ (arrays args).

(** [xr.apply_ufunc] on arrays and pass-through values, one output.  A
    required core dimension must be on its operand; operands must agree
    on the lengths of shared dimensions; no operand may carry a dimension
    that is core elsewhere.  The kernel runs at every broadcast cell and
    any exception it raises ends the call. *)
Definition apply_dataarray_vfunc (func : list karg -> result karg)
    (args : list operand) (icd : list (list string)) (ocd : list string)
    (keep_attrs : bool) : result DataArray :=
  match missing_core_dims args icd with
  | d :: ds => Err (MissingDimensionError (d :: ds))
  | [] =>
      sizes ← unified_dim_sizes [] (arrays args);
      let all_core := concat icd ++ ocd in
      let bdims := List.filter (fun dn => negb (mem dn.1 all_core)) sizes in
      match unexpected_dims bdims.*1 args icd with
      | d :: ds => Err (UnexpectedDimensionError (d :: ds))
      | [] =>
          let odims := bdims ++ with_sizes sizes ocd in
          let run := fun e => func (gather_all sizes e args icd) in
          match first_error (map run (cells bdims (fun _ => 0%nat))) with
          | Some e => Err e
          | None =>
              Ok (build odims (fun e => pick ocd e (run e))
                    (restrict_coords odims.*1 (all_coords args))
                    (first_attrs keep_attrs args))
          end
      end
  end.

Definition first_dataset (args : list operand) : option Dataset :=
  head (omap (fun o => match o with OSet d => Some d | _ => None end) args).

Definition var_names (d : Dataset) : list string := (data_vars d).*1.

Fixpoint lookup_var (n : string) (vs : list (string * DataArray))
    : option DataArray :=
  match vs with
  | [] => None
  | (n', a) :: vs' => if String.eqb n n' then Some a else lookup_var n vs'
  end.

(** The operand as seen when the data variable [n] is processed. *)
Definition select (n : string) (o : operand) : result operand :=
  match o with
  | OSet d =>
      match lookup_var n (data_vars d) with
      | Some a => Ok (OArr a)
      | None => Err DatasetJoinError
      end
  | _ => Ok o
  end.

(** [xr.apply_ufunc(func, *args, input_core_dims=icd,
    output_core_dims=[ocd], keep_attrs=keep_attrs)].  With a Dataset
    among the operands the function is applied once per data variable. *)
Definition apply_ufunc (func : list karg -> result karg)
    (args : list operand) (icd : list (list string)) (ocd : list string)
    (keep_attrs : bool) : result xobj :=
  match first_dataset args with
  | None => a ← apply_dataarray_vfunc func args icd ocd keep_attrs; Ok (XArr a)
  | Some d0 =>
      vars ← mapM (fun n =>
                args' ← mapM (select n) args;
                a ← apply_dataarray_vfunc func args' icd ocd keep_attrs;
                Ok (n, a)) (var_names d0);
      Ok (XSet {| data_vars := vars;
                  ds_attrs := match args with
                              | OSet d :: _ => if keep_attrs then ds_attrs d else ∅
                              | _ => ∅
                              end |})
  end.

(** *** Reductions *)

(** The names a reduction is asked to remove: every dimension when [dim]
    is [None]. *)
Definition reduce_names (dim : option (list string)) (all : list string)
    : list string :=
  match dim with
  | None => all
  | Some ds => ds
  end.

Definition reduced (ds : list string) (all : list (string * nat))
    : list (string * nat) :=
  List.filter (fun dn => mem dn.1 ds) all.

Definition kept (ds : list string) (all : list (string * nat))
    : list (string * nat) :=
  List.filter (fun dn => negb (mem dn.1 ds)) all.

(** The mean of [a] over those of its dimensions that [ds] names,
    skipping NaN. *)
Definition mean_over (a : DataArray) (ds : list string) (keep_attrs : bool)
    : DataArray :=
  build (kept ds (dims a))
    (fun e => np.nanmean (map (read a) (cells (reduced ds (dims a)) e)))
    (restrict_coords (kept ds (dims a)).*1 (coords a))
    (if keep_attrs then attrs a else ∅).

(** [a.mean(dim, keep_attrs=keep_attrs)]. *)
Definition DataArray_mean (a : DataArray) (dim : option (list string))
    (keep_attrs : bool) : result DataArray :=
  let ds := reduce_names dim (names a) in
  match absent (names a) ds with
  | d :: _ => Err (ReduceDimensionError d)
  | [] => Ok (mean_over a ds keep_attrs)
  end.

(** [d.mean(dim, keep_attrs=keep_attrs)]: every data variable is reduced
    over those of the requested dimensions it has. *)
Definition Dataset_mean (d : Dataset) (dim : option (list string))
    (keep_attrs : bool) : result Dataset :=
  let ds := reduce_names dim (ds_names d) in
  match absent (ds_names d) ds with
  | x :: _ => Err (ReduceDimensionError x)
  | [] =>
      Ok {| data_vars :=
              map (fun nv => (nv.1, mean_over nv.2 ds keep_attrs)) (data_vars d);
            ds_attrs := if keep_attrs then ds_attrs d else ∅ |}
  end.

Definition mean (x : xobj) (dim : option (list string)) (keep_attrs : bool)
    : result xobj :=
  match x with
  | XArr a => a' ← DataArray_mean a dim keep_attrs; Ok (XArr a')
  | XSet d => d' ← Dataset_mean d dim keep_attrs; Ok (XSet d')
  end.

Definition weight_of (w : fval) : Qc :=
  match w with
  | Fin q => q
  | NaN => Qc_of_Z 0
  end.

(** The (value, weight) pairs whose value is a number. *)
Definition valid_pairs (l : list (fval * fval)) : list (Qc * Qc) :=
  omap (fun vw => match vw.1 with
                  | Fin v => Some (v, weight_of vw.2)
                  | NaN => None
                  end) l.

(** sum(value * weight) / sum(weight) over the cells with a value; NaN
    when the weights there sum to zero. *)
Definition weighted_nanmean (l : list (fval * fval)) : fval :=
  let ps := valid_pairs l in
  let sum_of_weights := np.sum (map snd ps) in
  if Qc_eqb sum_of_weights (Qc_of_Z 0) then NaN
  else Fin (np.sum (map (fun p => p.1 * p.2)%Qc ps) / sum_of_weights).

Definition has_nan (w : DataArray) : bool :=
  existsb isnan (map (read w) (cells (dims w) (fun _ => 0%nat))).

Definition weighted_mean_over (a w : DataArray) (all : list (string * nat))
    (ds : list string) (keep_attrs : bool) : DataArray :=
  build (kept ds all)
    (fun e => weighted_nanmean
                (map (fun e' => (read a e', read w e')) (cells (reduced ds all) e)))
    (restrict_coords (kept ds all).*1 (dim_coords a ∪ dim_coords w))
    (if keep_attrs then attrs a else ∅).

(** [a.weighted(w).mean(dim, keep_attrs=keep_attrs)]. *)
Definition DataArray_weighted_mean (a w : DataArray)
    (dim : option (list string)) (keep_attrs : bool) : result DataArray :=
  if has_nan w then Err WeightsError
  else
    all ← unify (dims a) (dims w);
    let ds := reduce_names dim all.*1 in
    match absent all.*1 ds with
    | d :: _ => Err (ReduceDimensionError d)
    | [] => Ok (weighted_mean_over a w all ds keep_attrs)
    end.

(** [d.weighted(w).mean(dim, keep_attrs=keep_attrs)], variable by
    variable. *)
Definition Dataset_weighted_mean (d : Dataset) (w : DataArray)
    (dim : option (list string)) (keep_attrs : bool) : result Dataset :=
  if has_nan w then Err WeightsError
  else
    let ds := reduce_names dim (ds_names d ++ names w) in
    match absent (ds_names d ++ names w) ds with
    | x :: _ => Err (ReduceDimensionError x)
    | [] =>
        vars ← mapM (fun nv =>
                  all ← unify (dims nv.2) (dims w);
                  Ok (nv.1, weighted_mean_over nv.2 w all ds keep_attrs))
                (data_vars d);
        Ok {| data_vars := vars;
              ds_attrs := if keep_attrs then ds_attrs d else ∅ |}
    end.

Definition weighted_mean (x : xobj) (w : DataArray)
    (dim : option (list string)) (keep_attrs : bool) : result xobj :=
  match x with
  | XArr a => a' ← DataArray_weighted_mean a w dim keep_attrs; Ok (XArr a')
  | XSet d => d' ← Dataset_weighted_mean d w dim keep_attrs; Ok (XSet d')
  end.


End xr.

(** ** The kernels of properscoring

    The closed-form Gaussian CRPS, the quadrature CRPS and the ensemble
    CRPS stay abstract (section variables below).  The two Brier kernels
    are rational and are written out. *)

Module properscoring.

Definition sq_diff (f o : fval) : fval :=
  match f, o with
  | Fin a, Fin b => Fin ((a - b) * (a - b))
  | _, _ => NaN
  end.

Definition unit_interval (f : fval) : bool :=
  match f with
  | NaN => true
  | Fin q => Qc_leb (Qc_of_Z 0) q && Qc_leb q (Qc_of_Z 1)
  end.

Definition binary (o : fval) : bool :=
  match o with
  | NaN => true
  | Fin q => Qc_eqb q (Qc_of_Z 0) || Qc_eqb q (Qc_of_Z 1)
  end.

(** [properscoring.brier_score(observations, forecasts)] at one cell. *)
Definition brier_score (o f : fval) : result fval :=
  if negb (unit_interval f) then
    Err (KernelComputationError "forecasts must not be outside of the unit interval [0, 1]")
  else if negb (binary o) then
    Err (KernelComputationError "observations can only contain 0, 1, or NaN")
  else Ok (sq_diff f o).

(** [x > t] as a float, NaN where [x] is. *)
Definition exceedance (x t : fval) : fval :=
  match x, t with
  | NaN, _ => NaN
  | Fin _, NaN => Fin (Qc_of_Z 0)
  | Fin v, Fin u => Fin (if Qc_ltb u v then Qc_of_Z 1 else Qc_of_Z 0)
  end.

Definition threshold_brier_score_core (o : fval) (fs ts : list fval)
    : list fval :=
  map (fun t =>
         sq_diff (np.nanmean (map (fun f => exceedance f t) fs)) (exceedance o t))
      ts.

Definition same (x y : fval) : bool :=
  match x, y with
  | Fin a, Fin b => Qc_eqb a b
  | _, _ => false
  end.

Fixpoint all_same (xs ys : list fval) : bool :=
  match xs, ys with
  | [], [] => true
  | x :: xs', y :: ys' => same x y && all_same xs' ys'
  | _, _ => false
  end.

(** [properscoring.threshold_brier_score(observations, forecasts,
    threshold, issorted=issorted, axis=-1)] at one cell.  A scalar
    threshold is scored as a vector of one and the axis squeezed away; a
    vector must be sorted. *)
Definition threshold_brier_score (o : fval) (fs : list fval)
    (threshold : karg) (issorted : bool) : result karg :=
  let fs' := if issorted then fs else np.sort fs in
  match threshold with
  | KVec ts =>
      if all_same (np.sort ts) ts
      then Ok (KVec (threshold_brier_score_core o fs' ts))
      else Err (KernelComputationError "1D thresholds must be sorted")
  | KNum t => Ok (KNum (hd NaN (threshold_brier_score_core o fs' [t])))
  | KObj v => Ok (KNum (hd NaN (threshold_brier_score_core o fs' [float_of v])))
  end.

End properscoring.

(** ** The module *)

(** What [obj.dims] evaluates to: a tuple of names on a DataArray, a
    mapping from names to lengths on a Dataset. *)
Inductive pydims : Type :=
| TupleDims (ns : list string)
| MappingDims (m : gmap string nat).

#[global] Instance pydims_eq_dec : EqDecision pydims.
Proof. solve_decision. Defined.

Definition getattr_dims (v : pyval) : result pydims :=
  match v with
  | PyXr (XArr a) => Ok (TupleDims (names a))
  | PyXr (XSet d) =>
      Ok (MappingDims (list_to_map (flat_map (fun nv => dims nv.2) (data_vars d))))
  | _ => Err (AttributeError "dims")
  end.

Definition as_xobj (v : pyval) : result xobj :=
  match v with
  | PyXr x => Ok x
  | _ => Err (AttributeError "dims")
  end.

Definition operand_of (v : pyval) : operand :=
  match v with
  | PyXr (XArr a) => OArr a
  | PyXr (XSet d) => OSet d
  | _ => OVal v
  end.

Definition operand_of_xobj (x : xobj) : operand :=
  match x with
  | XArr a => OArr a
  | XSet d => OSet d
  end.

Section Operations.

Variable ps_crps_gaussian : fval -> fval -> fval -> result fval.
Variable ps_crps_quadrature : fval -> karg -> karg -> karg -> karg -> result fval.
(* observation, member values, member weights, issorted *)
Variable ps_crps_ensemble : fval -> list fval -> pyval -> bool -> result fval.

Definition k_crps_gaussian (args : list karg) : result karg :=
  match args with
  | [KNum o; KNum m; KNum s] => x ← ps_crps_gaussian o m s; Ok (KNum x)
  | _ => Err (KernelComputationError "crps_gaussian")
  end.

Definition k_crps_quadrature (args : list karg) : result karg :=
  match args with
  | [KNum x; cdf; xmin; xmax; tol] =>
      y ← ps_crps_quadrature x cdf xmin xmax tol; Ok (KNum y)
  | _ => Err (KernelComputationError "crps_quadrature")
  end.

Definition k_crps_ensemble (member_weights : pyval) (issorted : bool)
    (args : list karg) : result karg :=
  match args with
  | [KNum o; KVec fs] =>
      x ← ps_crps_ensemble o fs member_weights issorted; Ok (KNum x)
  | _ => Err (KernelComputationError "crps_ensemble")
  end.

Definition k_brier_score (args : list karg) : result karg :=
  match args with
  | [KNum o; KNum f] => x ← properscoring.brier_score o f; Ok (KNum x)
  | _ => Err (KernelComputationError "brier_score")
  end.

Definition k_threshold_brier_score (issorted : bool) (args : list karg)
    : result karg :=
  match args with
  | [KNum o; KVec fs; t] => properscoring.threshold_brier_score o fs t issorted
  | _ => Err (KernelComputationError "threshold_brier_score")
  end.

(** *** crps_gaussian *)

(** Lines 47-54: scalar [mu] and [sig] become arrays, then each is
    broadcast against [observations] when their [dims] differ. *)
Definition shape_normalizer (observations mu sig : pyval)
    : result (xobj * xobj * xobj) :=
  let mu := if isinstance_int_float mu then PyXr (XArr (xr.DataArray0 mu)) else mu in
  let sig := if isinstance_int_float sig then PyXr (XArr (xr.DataArray0 sig)) else sig in
  mu_dims ← getattr_dims mu;
  obs_dims ← getattr_dims observations;
  mu ← as_xobj mu;
  observations ← as_xobj observations;
  om ← (if bool_decide (mu_dims ≠ obs_dims)
        then xr.broadcast observations mu
        else Ok (observations, mu));
  let observations := om.1 in
  let mu := om.2 in
  sig_dims ← getattr_dims sig;
  obs_dims ← getattr_dims (PyXr observations);
  sig ← as_xobj sig;
  os ← (if bool_decide (sig_dims ≠ obs_dims)
        then xr.broadcast observations sig
        else Ok (observations, sig));
  Ok (os.1, mu, os.2).

(** Lines 47-64: the value [res] is bound to. *)
Definition crps_gaussian_res (observations mu sig : pyval)
    (keep_attrs : bool) : result xobj :=
  oms ← shape_normalizer observations mu sig;
  xr.apply_ufunc k_crps_gaussian
    [operand_of_xobj oms.1.1; operand_of_xobj oms.1.2; operand_of_xobj oms.2]
    [[]; []; []] [] keep_attrs.

Definition crps_gaussian (observations mu sig : pyval)
    (dim : option (list string)) (weights : option DataArray)
    (keep_attrs : bool) : result xobj :=
  res ← crps_gaussian_res observations mu sig keep_attrs;
  match weights with
  | Some w => xr.weighted_mean res w dim keep_attrs
  | None => xr.mean res dim keep_attrs
  end.

(** *** crps_quadrature *)

Definition crps_quadrature_res (x : xobj) (cdf_or_dist xmin xmax tol : pyval)
    (keep_attrs : bool) : result xobj :=
  xr.apply_ufunc k_crps_quadrature
    [operand_of_xobj x; operand_of cdf_or_dist; operand_of xmin;
     operand_of xmax; operand_of tol]
    [[]; []; []; []; []] [] keep_attrs.

Definition crps_quadrature (x : xobj) (cdf_or_dist xmin xmax tol : pyval)
    (dim : option (list string)) (weights : option DataArray)
    (keep_attrs : bool) : result xobj :=
  res ← crps_quadrature_res x cdf_or_dist xmin xmax tol keep_attrs;
  match weights with
  | Some w => xr.weighted_mean res w dim keep_attrs
  | None => xr.mean res dim keep_attrs
  end.

(** *** crps_ensemble *)

Definition crps_ensemble_res (observations forecasts : xobj)
    (member_weights : pyval) (issorted : bool) (member_dim : string)
    (keep_attrs : bool) : result xobj :=
  xr.apply_ufunc (k_crps_ensemble member_weights issorted)
    [operand_of_xobj observations; operand_of_xobj forecasts]
    [[]; [member_dim]] [] keep_attrs.

Definition crps_ensemble (observations forecasts : xobj)
    (member_weights : pyval) (issorted : bool) (member_dim : string)
    (dim : option (list string)) (weights : option DataArray)
    (keep_attrs : bool) : result xobj :=
  res ← crps_ensemble_res observations forecasts member_weights issorted
          member_dim keep_attrs;
  match weights with
  | Some w => xr.weighted_mean res w dim keep_attrs
  | None => xr.mean res dim keep_attrs
  end.

(** *** brier_score *)

Definition brier_score_res (observations forecasts : xobj)
    (keep_attrs : bool) : result xobj :=
  xr.apply_ufunc k_brier_score
    [operand_of_xobj observations; operand_of_xobj forecasts]
    [[]; []] [] keep_attrs.

Definition brier_score (observations forecasts : xobj)
    (dim : option (list string)) (weights : option DataArray)
    (keep_attrs : bool) : result xobj :=
  res ← brier_score_res observations forecasts keep_attrs;
  match weights with
  | Some w => xr.weighted_mean res w dim keep_attrs
  | None => xr.mean res dim keep_attrs
  end.

(** *** threshold_brier_score *)

(** Lines 306-309.  [threshold.sort()] sorts the list object in place;
    the array is made from the sorted contents and labelled 1..n. *)
Definition materialize_threshold (threshold : pyval) (h : heap)
    : pyval * heap :=
  match threshold with
  | PyList l =>
      let h' := alter py.sort l h in
      let t := xr.DataArray1 (default [] (h' !! l)) "threshold" in
      let size := default 0%nat (lookup_dim "threshold" (dims t)) in
      (PyXr (XArr (xr.assign_coord t "threshold" (np.arange 1 size))), h')
  | _ => (threshold, h)
  end.

(** Lines 311-326: the core dimensions chosen for the kind of threshold,
    as (input_core_dims, output_core_dims). *)
Definition route_threshold (threshold : pyval) (member_dim : string)
    : result (list (list string) * list string) :=
  match threshold with
  | PyXr x =>
      if negb (mem "threshold" (xdims x)) then Err InvalidThresholdError
      else Ok ([[]; [member_dim]; ["threshold"]], ["threshold"])
  | _ =>
      if isinstance_int_float threshold
      then Ok ([[]; [member_dim]; []], [])
      else Err InvalidThresholdError
  end.

Definition threshold_brier_score_res (observations forecasts : xobj)
    (threshold : pyval) (issorted : bool) (member_dim : string)
    (keep_attrs : bool) (h : heap) : result xobj * heap :=
  let th := materialize_threshold threshold h in
  (core_dims ← route_threshold th.1 member_dim;
   xr.apply_ufunc (k_threshold_brier_score issorted)
     [operand_of_xobj observations; operand_of_xobj forecasts; operand_of th.1]
     core_dims.1 core_dims.2 keep_attrs,
   th.2).

Definition threshold_brier_score (observations forecasts : xobj)
    (threshold : pyval) (issorted : bool) (member_dim : string)
    (dim : option (list string)) (weights : option DataArray)
    (keep_attrs : bool) (h : heap) : result xobj * heap :=
  let rh := threshold_brier_score_res observations forecasts threshold
              issorted member_dim keep_attrs h in
  (res ← rh.1;
   match weights with
   | Some w => xr.weighted_mean res w dim keep_attrs
   | None => xr.mean res dim keep_attrs
   end,
   rh.2).

(** *** The five operations as one interface *)

Inductive call : Type :=
| CrpsGaussian (observations mu sig : pyval)
| CrpsQuadrature (x : xobj) (cdf_or_dist xmin xmax tol : pyval)
| CrpsEnsemble (observations forecasts : xobj) (member_weights : pyval)
    (issorted : bool) (member_dim : string)
| BrierScore (observations forecasts : xobj)
| ThresholdBrierScore (observations forecasts : xobj) (threshold : pyval)
    (issorted : bool) (member_dim : string).

(** The value bound to [res] and the heap once it is bound. *)
Definition kernel_stage (c : call) (keep_attrs : bool) (h : heap)
    : result xobj * heap :=
  match c with
  | CrpsGaussian o mu sig => (crps_gaussian_res o mu sig keep_attrs, h)
  | CrpsQuadrature x cdf xmin xmax tol =>
      (crps_quadrature_res x cdf xmin xmax tol keep_attrs, h)
  | CrpsEnsemble o f mw issorted member_dim =>
      (crps_ensemble_res o f mw issorted member_dim keep_attrs, h)
  | BrierScore o f => (brier_score_res o f keep_attrs, h)
  | ThresholdBrierScore o f t issorted member_dim =>
      threshold_brier_score_res o f t issorted member_dim keep_attrs h
  end.

(** A call of the operation [c] with the arguments all five share. *)
Definition run (c : call) (dim : option (list string))
    (weights : option DataArray) (keep_attrs : bool) (h : heap)
    : result xobj * heap :=
  match c with
  | CrpsGaussian o mu sig =>
      (crps_gaussian o mu sig dim weights keep_attrs, h)
  | CrpsQuadrature x cdf xmin xmax tol =>
      (crps_quadrature x cdf xmin xmax tol dim weights keep_attrs, h)
  | CrpsEnsemble o f mw issorted member_dim =>
      (crps_ensemble o f mw issorted member_dim dim weights keep_attrs, h)
  | BrierScore o f => (brier_score o f dim weights keep_attrs, h)
  | ThresholdBrierScore o f t issorted member_dim =>
      threshold_brier_score o f t issorted member_dim dim weights keep_attrs h
  end.

(** The first input, the one attributes are taken from. *)
Definition first_input (c : call) : pyval :=
  match c with
  | CrpsGaussian o _ _ => o
  | CrpsQuadrature x _ _ _ _ => PyXr x
  | CrpsEnsemble o _ _ _ _ => PyXr o
  | BrierScore o _ => PyXr o
  | ThresholdBrierScore o _ _ _ _ => PyXr o
  end.

End Operations.

(** ** Notions the properties are stated with *)

(** The kinds of threshold the claim lists: a Python int or float, a list,
    or an xarray object with a dimension named "threshold". *)
Definition admissible_threshold (threshold : pyval) : Prop :=
  isinstance_int_float threshold = true
  \/ isinstance_list threshold = true
  \/ exists x : xobj, threshold = PyXr x /\ In "threshold" (xdims x).

Definition agree_on (S : list string) (e e' : env) : Prop :=
  forall d : string, In d S -> e d = e' d.





(** Observations [1, 0] over "x" with attributes; forecast probabilities
    [7/10, 1/5]; weights [1, 1]. *)
Definition obs_x : DataArray :=
  build [("x", 2%nat)] (fun e => nth (e "x") [Fin (Qc_of_Z 1); Fin (Qc_of_Z 0)] NaN)
    ∅ {[ "units" := "1" ]}.

Definition prob_x : DataArray :=
  build [("x", 2%nat)]
    (fun e => nth (e "x") [Fin (Q2Qc (7 # 10)); Fin (Q2Qc (1 # 5))] NaN) ∅ ∅.

Definition ones_x : DataArray :=
  build [("x", 2%nat)] (fun _ => Fin (Qc_of_Z 1)) ∅ ∅.

Definition no_gaussian : fval -> fval -> fval -> result fval :=
  fun _ _ _ => Ok NaN.
Definition no_quadrature : fval -> karg -> karg -> karg -> karg -> result fval :=
  fun _ _ _ _ _ => Ok NaN.
Definition no_ensemble : fval -> list fval -> pyval -> bool -> result fval :=
  fun _ _ _ _ => Ok NaN.



(** An ensemble of two members over "x", and observations and an ensemble
    that carry a dimension named "threshold". *)
Definition ens_x : DataArray :=
  build [("x", 2%nat); ("member", 2%nat)]
    (fun e => Fin (Qc_of_nat (e "x" + e "member"))) ∅ ∅.



Definition heap_one : heap := {[ 1%positive := [Qc_of_Z 1] ]}.

(** The inputs of the spec's scenarios B and C: one observed event with
    forecast probability 7/10; the ensemble 1, 2, 3 against the
    observation 2, with the thresholds 5/2 and 3/2 in a list. *)
Definition obs_event : DataArray := xr.DataArray1 [Qc_of_Z 1] "x".

Definition prob_event : DataArray := xr.DataArray1 [Q2Qc (7 # 10)] "x".

Definition members_123 : DataArray :=
  xr.DataArray1 [Qc_of_Z 1; Qc_of_Z 2; Qc_of_Z 3] "member".

Definition obs_two : DataArray := xr.DataArray0 (PyInt 2).

Definition heap_thresholds : heap :=
  {[ 1%positive := [Q2Qc (5 # 2); Q2Qc (3 # 2)] ]}.

(** What a result shows: its dimensions, its values in row-major order as
    fractions in lowest terms, and the labels along "threshold". *)
Definition fraction (x : fval) : option Q :=
  match x with
  | Fin q => Some (this q)
  | NaN => None
  end.

Definition shown (r : result xobj)
    : option (list (string * nat) * list (option Q) * option (list Z)) :=
  match r with
  | Ok (XArr a) =>
      Some (dims a,
            map (fun e => fraction (read a e)) (cells (dims a) (fun _ => 0%nat)),
            coords a !! "threshold")
  | _ => None
  end.

(** The member dimension of a call of an ensemble operation. *)
Definition member_dim_of (c : call) : option string :=
  match c with
  | CrpsEnsemble _ _ _ _ m => Some m
  | ThresholdBrierScore _ _ _ _ m => Some m
  | _ => None
  end.


(** A Dataset of two variables over "x", with attributes. *)
Definition obs_set : Dataset :=
  {| data_vars := [("a", obs_x); ("b", ones_x)];
     ds_attrs := {[ "title" := "events" ]} |}.

(** * Properties *)

Example cells_2x2 :
  map (fun e => (e "x", e "y")) (cells [("x", 2%nat); ("y", 2%nat)] (fun _ => 7%nat))
  = [(0, 0); (0, 1); (1, 0); (1, 1)]%nat.
Proof. reflexivity. Qed.

(** ** Comparisons and sorting *)

Lemma Qc_leb_le (a b : Qc) : Qc_leb a b = true <-> (a <= b)%Qc.
Proof.
  unfold Qc_leb. destruct (Qclt_le_dec b a) as [Hlt | Hle].
  - split; [discriminate |]. intros Hab. exfalso.
    exact (Qclt_not_le _ _ Hlt Hab).
  - tauto.
Qed.

Lemma Qc_leb_total (a b : Qc) : Qc_leb a b = false -> (b <= a)%Qc.
Proof.
  unfold Qc_leb. destruct (Qclt_le_dec b a) as [Hlt | Hle]; [| discriminate].
  intros _. now apply Qclt_le_weak.
Qed.

Lemma insert_sorted_perm (x : Qc) (l : list Qc) :
  Permutation (x :: l) (py.insert_sorted x l).
Proof.
  induction l as [| y l IH]; simpl; [reflexivity |].
  destruct (Qc_leb x y); [reflexivity |].
  rewrite perm_swap. now apply perm_skip.
Qed.

Lemma sort_perm (l : list Qc) : Permutation l (py.sort l).
Proof.
  induction l as [| x l IH]; simpl; [constructor |].
  rewrite <- insert_sorted_perm. now apply perm_skip.
Qed.

Lemma sort_length (l : list Qc) : length (py.sort l) = length l.
Proof. symmetry. apply Permutation_length, sort_perm. Qed.

Lemma insert_sorted_hdrel (a x : Qc) (l : list Qc) :
  (a <= x)%Qc -> HdRel Qcle a l -> HdRel Qcle a (py.insert_sorted x l).
Proof.
  intros Hax Hl. destruct l as [| y l]; simpl; [now constructor |].
  destruct (Qc_leb x y); constructor; [assumption |].
  now inversion Hl.
Qed.

Lemma insert_sorted_sorted (x : Qc) (l : list Qc) :
  Sorted Qcle l -> Sorted Qcle (py.insert_sorted x l).
Proof.
  induction l as [| y l IH]; intros Hs; simpl.
  - repeat constructor.
  - destruct (Qc_leb x y) eqn:Hxy.
    + constructor; [assumption |]. constructor. now apply Qc_leb_le.
    + inversion Hs as [| ? ? Hs' Hhd]; subst.
      constructor; [now apply IH |].
      apply insert_sorted_hdrel; [now apply Qc_leb_total | assumption].
Qed.

Lemma sort_sorted (l : list Qc) : Sorted Qcle (py.sort l).
Proof.
  induction l as [| x l IH]; simpl; [constructor |].
  now apply insert_sorted_sorted.
Qed.

(** ** Thresholds given as a list *)



(** ** The threshold check *)

Lemma mem_In (d : string) (ns : list string) : mem d ns = true <-> In d ns.
Proof.
  unfold mem. rewrite existsb_exists. split.
  - intros (x & Hx & Heq). apply String.eqb_eq in Heq. now subst.
  - intros Hd. exists d. split; [assumption | apply String.eqb_refl].
Qed.

Lemma mem_not_In (d : string) (ns : list string) : mem d ns = false <-> ~ In d ns.
Proof.
  rewrite <- mem_In. destruct (mem d ns); split; intros H; congruence.
Qed.


(** C10: a Python boolean threshold takes the scalar path: nothing is
    materialized, the core dimensions are those of a scalar (no output
    dimension), and scoring labeled arrays with it is scoring them with the
    number 1 or 0. *)
Theorem bool_threshold_is_scalar (b : bool) (member_dim : string) (h : heap) :
  materialize_threshold (PyBool b) h = (PyBool b, h)
  /\ route_threshold (PyBool b) member_dim = Ok ([[]; [member_dim]; []], [])
  /\ (forall (o : fval) (fs : list fval) (issorted : bool),
        k_threshold_brier_score issorted [KNum o; KVec fs; KObj (PyBool b)]
        = k_threshold_brier_score issorted [KNum o; KVec fs; KObj (PyInt (Z.b2z b))])
  /\ (forall (observations forecasts : DataArray) (issorted : bool)
        (dim : option (list string)) (weights : option DataArray)
        (keep_attrs : bool),
        threshold_brier_score (XArr observations) (XArr forecasts) (PyBool b)
          issorted member_dim dim weights keep_attrs h
        = threshold_brier_score (XArr observations) (XArr forecasts)
            (PyInt (Z.b2z b)) issorted member_dim dim weights keep_attrs h).
Proof.
  repeat split.
Qed.

(** ** The member dimension *)

Section Member.

Variable ps_crps_ensemble : fval -> list fval -> pyval -> bool -> result fval.




End Member.


(** ** Inputs after a call *)

(** C8, evaluated: after threshold_brier_score is called with the list
    [3, 1, 2], the caller's list object holds [1, 2, 3]. *)
Theorem threshold_list_sorted_in_place
    (observations forecasts : xobj) (issorted : bool) (member_dim : string)
    (dim : option (list string)) (weights : option DataArray)
    (keep_attrs : bool) :
  let h : heap := {[ 1%positive := [Qc_of_Z 3; Qc_of_Z 1; Qc_of_Z 2] ]} in
  (threshold_brier_score observations forecasts (PyList 1%positive) issorted
     member_dim dim weights keep_attrs h).2 !! 1%positive
  = Some [Qc_of_Z 1; Qc_of_Z 2; Qc_of_Z 3]
  /\ h !! 1%positive = Some [Qc_of_Z 3; Qc_of_Z 1; Qc_of_Z 2].
Proof.
  split; reflexivity.
Qed.

(** Every threshold that is not a list leaves the heap as it was, and so do
    the other four operations. *)
Lemma heap_unchanged_without_list
    (ps_g : fval -> fval -> fval -> result fval)
    (ps_q : fval -> karg -> karg -> karg -> karg -> result fval)
    (ps_e : fval -> list fval -> pyval -> bool -> result fval)
    (c : call) (dim : option (list string)) (weights : option DataArray)
    (keep_attrs : bool) (h : heap) :
  (forall o f l s m, c <> ThresholdBrierScore o f (PyList l) s m) ->
  (run ps_g ps_q ps_e c dim weights keep_attrs h).2 = h.
Proof.
  intros Hc. destruct c as [| | | | o f t s m]; try reflexivity.
  destruct t; try reflexivity. exfalso. now apply (Hc o f l s m).
Qed.

(** ** Reading arrays by name *)

Lemma env_of_map (ns : list string) (e : env) (d : string) :
  In d ns -> env_of ns (map e ns) d = e d.
Proof.
  induction ns as [| n ns IH]; simpl; [tauto |].
  intros Hd. destruct (String.eqb d n) eqn:Hdn.
  - apply String.eqb_eq in Hdn. now subst.
  - apply IH. destruct Hd as [-> | Hd]; [| assumption].
    now rewrite String.eqb_refl in Hdn.
Qed.

Lemma read_agree (a : DataArray) (e e' : env) :
  agree_on (names a) e e' -> read a e = read a e'.
Proof.
  intros H. unfold read. f_equal. apply map_ext_in. exact H.
Qed.

Lemma upd_same (e : env) (d : string) (i : nat) : upd e d i d = i.
Proof. unfold upd. now rewrite String.eqb_refl. Qed.

Lemma upd_other (e : env) (d x : string) (i : nat) : x <> d -> upd e d i x = e x.
Proof.
  intros Hx. unfold upd. destruct (String.eqb x d) eqn:E; [| reflexivity].
  apply String.eqb_eq in E. contradiction.
Qed.


Lemma read_build (ds : list (string * nat)) (f : env -> fval)
    (cs : gmap string (list Z)) (ats : gmap string string) (e : env) :
  read (build ds f cs ats) e = f (env_of ds.*1 (map e ds.*1)).
Proof. reflexivity. Qed.

Lemma In_names (a : DataArray) (dn : string * nat) :
  In dn (dims a) -> In dn.1 (names a).
Proof. intros H. unfold names. now apply (in_map fst). Qed.

Lemma filter_none {A : Type} (f : A -> bool) (l : list A) :
  (forall x, In x l -> f x = false) -> List.filter f l = [].
Proof.
  induction l as [| x l IH]; intros H; simpl; [reflexivity |].
  rewrite (H x) by now left. apply IH. intros y Hy. apply H. now right.
Qed.


Lemma absent_nil_incl (ns ds : list string) : xr.absent ns ds = [] -> incl ds ns.
Proof.
  unfold xr.absent. induction ds as [| d ds IH]; simpl; intros H x Hx; [destruct Hx |].
  destruct (mem d ns) eqn:Hm; simpl in H; [| discriminate].
  destruct Hx as [<- | Hx]; [now apply mem_In | now apply IH].
Qed.




(** ** The reduction stage *)





Section Reduction.

Variable ps_crps_gaussian : fval -> fval -> fval -> result fval.
Variable ps_crps_quadrature : fval -> karg -> karg -> karg -> karg -> result fval.
Variable ps_crps_ensemble : fval -> list fval -> pyval -> bool -> result fval.

Let run := run ps_crps_gaussian ps_crps_quadrature ps_crps_ensemble.
Let kernel_stage :=
  kernel_stage ps_crps_gaussian ps_crps_quadrature ps_crps_ensemble.

(** Every operation is its kernel stage followed by the reduction. *)
Lemma run_kernel_then_reduce (c : call) (dim : option (list string))
    (weights : option DataArray) (keep_attrs : bool) (h : heap) :
  run c dim weights keep_attrs h
  = ((kernel_stage c keep_attrs h).1 ≫= (fun res =>
       match weights with
       | Some w => xr.weighted_mean res w dim keep_attrs
       | None => xr.mean res dim keep_attrs
       end),
     (kernel_stage c keep_attrs h).2).
Proof. destruct c; reflexivity. Qed.


End Reduction.

(** ** Attributes *)

Lemma bind_Ok {A B : Type} (m : result A) (f : A -> result B) (b : B) :
  m ≫= f = Ok b -> exists a : A, m = Ok a /\ f a = Ok b.
Proof. destruct m as [a | e]; [eauto | discriminate]. Qed.

Tactic Notation "invert_bind" hyp(H) "as" ident(a) ident(Ha) :=
  apply bind_Ok in H as (a & Ha & H).





Lemma reduce_array_of_array (x : xobj) (r : DataArray)
    (dim : option (list string)) (weights : option DataArray) (keep_attrs : bool) :
  match weights with
  | Some w => xr.weighted_mean x w dim keep_attrs
  | None => xr.mean x dim keep_attrs
  end = Ok (XArr r) ->
  exists a : DataArray, x = XArr a.
Proof.
  destruct x as [a | d]; [eauto |].
  destruct weights; simpl; intros H; invert_bind H as d' Hd; discriminate.
Qed.



Section Attributes.

Variable ps_crps_gaussian : fval -> fval -> fval -> result fval.
Variable ps_crps_quadrature : fval -> karg -> karg -> karg -> karg -> result fval.
Variable ps_crps_ensemble : fval -> list fval -> pyval -> bool -> result fval.

Let run := run ps_crps_gaussian ps_crps_quadrature ps_crps_ensemble.
Let kernel_stage :=
  kernel_stage ps_crps_gaussian ps_crps_quadrature ps_crps_ensemble.



End Attributes.

(** ** Weights that are all one *)













Lemma In_kept (ds : list string) (all : list (string * nat)) (k : string) :
  In k (xr.kept ds all).*1 -> In k all.*1 /\ ~ In k ds.
Proof.
  intros H. apply in_map_iff in H as (dn & <- & Hdn).
  apply filter_In in Hdn as [Hin Hm]. split; [now apply (in_map fst) |].
  apply mem_not_In. now destruct (mem dn.1 ds).
Qed.

Lemma restrict_coords_lookup (ns : list string) (cs : gmap string (list Z))
    (k : string) (v : list Z) :
  xr.restrict_coords ns cs !! k = Some v <-> cs !! k = Some v /\ In k ns.
Proof.
  unfold xr.restrict_coords. rewrite map_lookup_filter_Some. simpl.
  now rewrite mem_In.
Qed.



Section UniformWeights.

Variable ps_crps_gaussian : fval -> fval -> fval -> result fval.
Variable ps_crps_quadrature : fval -> karg -> karg -> karg -> karg -> result fval.
Variable ps_crps_ensemble : fval -> list fval -> pyval -> bool -> result fval.

Let run := run ps_crps_gaussian ps_crps_quadrature ps_crps_ensemble.
Let kernel_stage :=
  kernel_stage ps_crps_gaussian ps_crps_quadrature ps_crps_ensemble.


End UniformWeights.

(** ** The shape normalizer of crps_gaussian *)


Lemma lookup_dim_Some_In (d : string) (ds : list (string * nat)) (n : nat) :
  lookup_dim d ds = Some n -> In d ds.*1.
Proof.
  induction ds as [| [d' m] ds IH]; simpl; [discriminate |].
  destruct (String.eqb d d') eqn:E.
  - apply String.eqb_eq in E. intros _. now left.
  - intros H. right. now apply IH.
Qed.

Lemma unify_names (ds acc r : list (string * nat)) :
  xr.unify acc ds = Ok r ->
  forall d : string, In d r.*1 <-> In d acc.*1 \/ In d ds.*1.
Proof.
  revert acc. induction ds as [| [d0 n] ds IH]; intros acc H d; simpl in H.
  - injection H as <-. simpl. tauto.
  - destruct (lookup_dim d0 acc) as [m |] eqn:Hl.
    + destruct (Nat.eqb n m); [| discriminate].
      rewrite (IH _ H d). simpl. apply lookup_dim_Some_In in Hl.
      split; [tauto |]. intros [Ha | [<- | Hd]]; tauto.
    + rewrite (IH _ H d), fmap_app, in_app_iff. simpl. tauto.
Qed.

Lemma read_set_dims (a : DataArray) (ds : list (string * nat))
    (cs : gmap string (list Z)) (ats : gmap string string) (e : env) :
  incl (names a) ds.*1 -> read (build ds (read a) cs ats) e = read a e.
Proof.
  intros H. rewrite read_build. apply read_agree. intros d Hd.
  apply env_of_map. now apply H.
Qed.






(** ** Worked inputs *)



(** ** A scalar threshold and a list of one threshold *)







Lemma filter_all {A : Type} (f : A -> bool) (l : list A) :
  (forall x, In x l -> f x = true) -> List.filter f l = l.
Proof.
  induction l as [| x l IH]; intros H; simpl; [reflexivity |].
  rewrite (H x) by now left. f_equal. apply IH. intros y Hy. apply H. now right.
Qed.


Lemma kept_app (ds : list string) (l1 l2 : list (string * nat)) :
  xr.kept ds (l1 ++ l2) = xr.kept ds l1 ++ xr.kept ds l2.
Proof. apply List.filter_app. Qed.


Lemma kept_single (ds : list string) (d : string) (n : nat) :
  ~ In d ds -> xr.kept ds [(d, n)] = [(d, n)].
Proof.
  intros H. apply mem_not_In in H. unfold xr.kept. simpl. now rewrite H.
Qed.


Lemma kept_incl (ds : list string) (l : list (string * nat)) (d : string) :
  In d (xr.kept ds l).*1 -> In d l.*1.
Proof. intros H. now apply In_kept in H. Qed.


Lemma lookup_dim_app_fresh (d : string) (n : nat) (l : list (string * nat)) :
  ~ In d l.*1 -> lookup_dim d (l ++ [(d, n)]) = Some n.
Proof.
  induction l as [| [d' m] l IH]; simpl; intros H.
  - now rewrite String.eqb_refl.
  - destruct (String.eqb d d') eqn:E.
    + apply String.eqb_eq in E. exfalso. apply H. now left.
    + apply IH. intros Hd. apply H. now right.
Qed.






















Lemma lookup_dim_None_fresh (d : string) (l : list (string * nat)) :
  ~ In d l.*1 -> lookup_dim d l = None.
Proof.
  intros H. destruct (lookup_dim d l) eqn:E; [| reflexivity].
  apply lookup_dim_Some_In in E. contradiction.
Qed.








(** ** The spec's scenarios *)

(** Scenario B: one observed event forecast with probability 0.7 scores
    (0.7 - 1)^2 = 0.09. *)
Example scenario_B :
  shown (brier_score (XArr obs_event) (XArr prob_event) None None false)
  = Some ([], [Some (9 # 100)], None).
Proof. reflexivity. Qed.

(** Scenario C: thresholds [2.5, 1.5] given as a list, no dimension
    reduced: a "threshold" dimension of size 2 labelled 1, 2, each entry
    1/9. *)
Example scenario_C :
  shown (threshold_brier_score (XArr obs_two) (XArr members_123)
           (PyList 1%positive) false "member" (Some []) None false
           heap_thresholds).1
  = Some ([("threshold", 2%nat)], [Some (1 # 9); Some (1 # 9)], Some [1%Z; 2%Z]).
Proof. reflexivity. Qed.

(** The same call with the default [dim] averages the thresholds too. *)
Example scenario_C_default_dim :
  shown (threshold_brier_score (XArr obs_two) (XArr members_123)
           (PyList 1%positive) false "member" None None false
           heap_thresholds).1
  = Some ([], [Some (1 # 9)], None).
Proof. reflexivity. Qed.

Example scalar_array_has_no_dimension (v : pyval) (idx : list nat) :
  dims (xr.DataArray0 v) = [] /\ data (xr.DataArray0 v) idx = float_of v.
Proof. split; reflexivity. Qed.

(** * Further properties of the five operations *)

(** ** The list object of a threshold *)



Lemma sort_permuted (xs xs' : list Qc) :
  Permutation xs xs' -> py.sort xs = py.sort xs'.
Proof.
  intros Hp.
  apply (sorting.Sorted_unique_strong Qcle (Transitive0 := Qcle_trans)).
  - intros x1 x2 _ _. apply Qcle_antisym.
  - apply sort_sorted.
  - apply sort_sorted.
  - now rewrite <- (sort_perm xs), <- (sort_perm xs').
Qed.



Lemma materialize_list (l : loc) (xs : list Qc) (h : heap) :
  h !! l = Some xs ->
  (materialize_threshold (PyList l) h).1
  = PyXr (XArr (xr.assign_coord (xr.DataArray1 (py.sort xs) "threshold")
                  "threshold" (np.arange 1 (length (py.sort xs))))).
Proof.
  intros Hl. unfold materialize_threshold.
  now rewrite lookup_alter_eq, Hl.
Qed.

(** X2: the order in which the thresholds are listed does not matter: two
    lists holding the same values in any order give the same result. *)
Theorem threshold_list_order_irrelevant (observations forecasts : xobj)
    (l l' : loc) (xs xs' : list Qc) (h h' : heap) (issorted : bool)
    (member_dim : string) (dim : option (list string))
    (weights : option DataArray) (keep_attrs : bool) :
  h !! l = Some xs ->
  h' !! l' = Some xs' ->
  Permutation xs xs' ->
  (threshold_brier_score observations forecasts (PyList l) issorted member_dim
     dim weights keep_attrs h).1
  = (threshold_brier_score observations forecasts (PyList l') issorted
       member_dim dim weights keep_attrs h').1.
Proof.
  intros Hl Hl' Hp.
  unfold threshold_brier_score, threshold_brier_score_res. cbn [fst].
  now rewrite (materialize_list _ _ _ Hl), (materialize_list _ _ _ Hl'),
    (sort_permuted _ _ Hp).
Qed.

Lemma threshold_list_order_irrelevant_witness :
  (threshold_brier_score (XArr obs_two) (XArr members_123) (PyList 1%positive)
     false "member" (Some []) None false heap_thresholds).1
  = (threshold_brier_score (XArr obs_two) (XArr members_123) (PyList 7%positive)
       false "member" (Some []) None false
       {[ 7%positive := [Q2Qc (3 # 2); Q2Qc (5 # 2)] ]}).1.
Proof.
  apply (threshold_list_order_irrelevant (XArr obs_two) (XArr members_123)
           1%positive 7%positive [Q2Qc (5 # 2); Q2Qc (3 # 2)]
           [Q2Qc (3 # 2); Q2Qc (5 # 2)]).
  - reflexivity.
  - reflexivity.
  - apply perm_swap.
Defined.

(** ** The order of the checks *)

(** X3: threshold_brier_score checks the threshold before anything else: a
    threshold that is no number, no list and no xarray object with a
    "threshold" dimension ends the call with the invalid threshold error
    whatever the observations, the forecasts and the other arguments are,
    and nothing is changed. *)
Theorem invalid_threshold_rejected_first (observations forecasts : xobj)
    (threshold : pyval) (issorted : bool) (member_dim : string)
    (dim : option (list string)) (weights : option DataArray)
    (keep_attrs : bool) (h : heap) :
  ~ admissible_threshold threshold ->
  threshold_brier_score observations forecasts threshold issorted member_dim
    dim weights keep_attrs h
  = (Err InvalidThresholdError, h).
Proof.
  unfold admissible_threshold. intros Hn.
  destruct threshold as [| b | z | x | s | xs | l | id | x];
    try reflexivity; try (exfalso; apply Hn; simpl; tauto).
  destruct (mem "threshold" (xdims x)) eqn:Hm.
  - exfalso. apply Hn. right. right. exists x. split; [reflexivity |].
    now apply mem_In.
  - unfold threshold_brier_score, threshold_brier_score_res.
    cbn [materialize_threshold fst snd route_threshold]. now rewrite Hm.
Qed.

Lemma invalid_threshold_rejected_first_witness :
  threshold_brier_score (XArr obs_x) (XArr obs_x) (PyTuple [Qc_of_Z 1]) false
    "member" None None false heap_one
  = (Err InvalidThresholdError, heap_one).
Proof.
  apply (invalid_threshold_rejected_first (XArr obs_x) (XArr obs_x)
           (PyTuple [Qc_of_Z 1]) false "member" None None false heap_one).
  intros [H | [H | (x & H & _)]]; discriminate.
Defined.

(** ** What a successful kernel stage looks like *)

Lemma apply_dataarray_vfunc_Ok (func : list karg -> result karg)
    (args : list operand) (icd : list (list string)) (ocd : list string)
    (keep_attrs : bool) (r : DataArray) :
  xr.apply_dataarray_vfunc func args icd ocd keep_attrs = Ok r ->
  exists sizes : list (string * nat),
    xr.missing_core_dims args icd = []
    /\ xr.unified_dim_sizes [] (xr.arrays args) = Ok sizes
    /\ xr.unexpected_dims
         (List.filter (fun dn => negb (mem dn.1 (concat icd ++ ocd))) sizes).*1
         args icd = []
    /\ xr.first_error
         (map (fun e => func (xr.gather_all sizes e args icd))
            (cells (List.filter (fun dn => negb (mem dn.1 (concat icd ++ ocd))) sizes)
               (fun _ => 0%nat))) = None
    /\ r = build
             (List.filter (fun dn => negb (mem dn.1 (concat icd ++ ocd))) sizes
              ++ xr.with_sizes sizes ocd)
             (fun e => xr.pick ocd e (func (xr.gather_all sizes e args icd)))
             (xr.restrict_coords
                (List.filter (fun dn => negb (mem dn.1 (concat icd ++ ocd))) sizes
                 ++ xr.with_sizes sizes ocd).*1
                (xr.all_coords args))
             (xr.first_attrs keep_attrs args).
Proof.
  unfold xr.apply_dataarray_vfunc. intros H.
  destruct (xr.missing_core_dims args icd); [| discriminate].
  invert_bind H as sizes Hsizes. exists sizes.
  destruct (xr.unexpected_dims _ args icd); [| discriminate].
  destruct (xr.first_error _) eqn:Hfe; [discriminate |].
  injection H as <-. repeat split; assumption.
Qed.

Lemma first_error_None {A B : Type} (f : A -> result B) (l : list A) :
  xr.first_error (map f l) = None ->
  forall x, In x l -> exists v, f x = Ok v.
Proof.
  induction l as [| y l IH]; simpl; intros H x Hx; [destruct Hx |].
  destruct (f y) as [v | e] eqn:Hy; [| discriminate].
  destruct Hx as [<- | Hx]; [eauto | now apply IH].
Qed.

Lemma first_error_Some {A B : Type} (f : A -> result B) (l : list A) (x : A)
    (e : exn) :
  In x l -> f x = Err e -> exists e', xr.first_error (map f l) = Some e'.
Proof.
  induction l as [| y l IH]; simpl; intros Hx Hfx; [destruct Hx |].
  destruct (f y) as [v | e0] eqn:Hy; [| eauto].
  destruct Hx as [<- | Hx]; [congruence | now apply IH].
Qed.

Lemma with_sizes_names (sizes : list (string * nat)) (ns : list string) :
  (xr.with_sizes sizes ns).*1 = ns.
Proof.
  induction ns as [| n ns IH]; [reflexivity |].
  change ((xr.with_sizes sizes (n :: ns)).*1)
    with (n :: (xr.with_sizes sizes ns).*1).
  now rewrite IH.
Qed.

(** A dimension of the kernel output is an output core dimension or is
    core to no operand. *)
Lemma apply_ufunc_names (func : list karg -> result karg)
    (args : list operand) (icd : list (list string)) (ocd : list string)
    (keep_attrs : bool) (r : DataArray) (d : string) :
  xr.apply_ufunc func args icd ocd keep_attrs = Ok (XArr r) ->
  In d (names r) ->
  In d ocd \/ ~ In d (concat icd).
Proof.
  unfold xr.apply_ufunc. intros H Hd.
  destruct (xr.first_dataset args).
  { invert_bind H as vars Hvars. discriminate. }
  invert_bind H as a Ha. injection H as ->.
  apply apply_dataarray_vfunc_Ok in Ha as (sizes & _ & _ & _ & _ & ->).
  unfold names in Hd. cbn [build dims] in Hd.
  rewrite fmap_app, with_sizes_names, in_app_iff in Hd.
  destruct Hd as [Hd | Hd]; [right | now left].
  apply in_map_iff in Hd as (dn & <- & Hdn).
  apply filter_In in Hdn as [_ Hm].
  intros Hc. assert (Hin : In dn.1 (concat icd ++ ocd)) by (apply in_app_iff; now left).
  apply mem_In in Hin. now rewrite Hin in Hm.
Qed.

Lemma mean_names (a r : DataArray) (dim : option (list string)) (keep_attrs : bool) :
  xr.mean (XArr a) dim keep_attrs = Ok (XArr r) -> incl (names r) (names a).
Proof.
  unfold xr.mean, xr.DataArray_mean. intros H. invert_bind H as a' Ha.
  injection H as <-. destruct (xr.absent _ _); [| discriminate].
  injection Ha as <-. intros d Hd. now apply kept_incl in Hd.
Qed.

Lemma weighted_mean_names (a w r : DataArray) (dim : option (list string))
    (keep_attrs : bool) :
  xr.weighted_mean (XArr a) w dim keep_attrs = Ok (XArr r) ->
  forall d, In d (names r) -> In d (names a) \/ In d (names w).
Proof.
  unfold xr.weighted_mean, xr.DataArray_weighted_mean. intros H.
  invert_bind H as a' Ha. injection H as <-.
  destruct (xr.has_nan w); [discriminate |].
  invert_bind Ha as all Hall.
  destruct (xr.absent _ _); [| discriminate]. injection Ha as <-.
  intros d Hd. apply kept_incl in Hd. now apply (unify_names _ _ _ Hall).
Qed.

(** ** The member dimension, whatever it is called *)

Lemma route_threshold_Ok (threshold : pyval) (member_dim : string)
    (core_dims : list (list string) * list string) :
  route_threshold threshold member_dim = Ok core_dims ->
  core_dims = ([[]; [member_dim]; ["threshold"]], ["threshold"])
  \/ core_dims = ([[]; [member_dim]; []], []).
Proof.
  unfold route_threshold. intros H.
  destruct threshold as [| b | z | x | s | xs | l | id | x];
    try discriminate; try (injection H as <-; now right).
  destruct (negb (mem "threshold" (xdims x))); [discriminate |].
  injection H as <-. now left.
Qed.

Section MemberDim.

Variable ps_crps_gaussian : fval -> fval -> fval -> result fval.
Variable ps_crps_quadrature : fval -> karg -> karg -> karg -> karg -> result fval.
Variable ps_crps_ensemble : fval -> list fval -> pyval -> bool -> result fval.


(** X5: a result never keeps the member dimension: when crps_ensemble or
    threshold_brier_score returns a labeled array, the dimension named
    [member_dim] (any name but "threshold", and not a dimension of the
    weights) is not among its dimensions, whatever was reduced. *)
Theorem member_dimension_consumed (c : call) (member_dim : string)
    (dim : option (list string)) (weights : option DataArray)
    (keep_attrs : bool) (h : heap) (r : DataArray) :
  member_dim_of c = Some member_dim ->
  member_dim <> "threshold" ->
  (forall w, weights = Some w -> ~ In member_dim (names w)) ->
  (run ps_crps_gaussian ps_crps_quadrature ps_crps_ensemble c dim weights
     keep_attrs h).1 = Ok (XArr r) ->
  ~ In member_dim (names r).
Proof.
  intros Hc Hne Hw H Hin. rewrite run_kernel_then_reduce in H. cbn [fst] in H.
  invert_bind H as res Hres.
  destruct (reduce_array_of_array _ _ _ _ _ H) as [a ->].
  assert (Ha : In member_dim (names a)).
  { destruct weights as [w |].
    - destruct (weighted_mean_names _ _ _ _ _ H _ Hin) as [Ha | Ha];
        [assumption |]. exfalso. now apply (Hw w).
    - now apply (mean_names _ _ _ _ H). }
  destruct c as [o mu sig | x cdf xmin xmax tol | o f mw s m | o f | o f t s m];
    try discriminate; injection Hc as ->; cbn [kernel_stage fst] in Hres.
  - destruct (apply_ufunc_names _ _ _ _ _ _ _ Hres Ha) as [[] | Hc].
    apply Hc. simpl. now left.
  - unfold threshold_brier_score_res in Hres. cbn [fst] in Hres.
    invert_bind Hres as core_dims Hroute.
    destruct (apply_ufunc_names _ _ _ _ _ _ _ Hres Ha) as [Ho | Hc];
      apply route_threshold_Ok in Hroute as [-> | ->]; cbn [fst snd] in *.
    + destruct Ho as [Heq | []]. now symmetry in Heq.
    + destruct Ho.
    + apply Hc. simpl. tauto.
    + apply Hc. simpl. tauto.
Qed.

End MemberDim.


Lemma member_dimension_consumed_witness :
  exists r : DataArray,
    (run no_gaussian no_quadrature no_ensemble
       (CrpsEnsemble (XArr obs_x) (XArr ens_x) PyNone false "member")
       (Some []) None false ∅).1 = Ok (XArr r)
    /\ ~ In "member" (names r).
Proof.
  eexists. split; [reflexivity |].
  apply (member_dimension_consumed no_gaussian no_quadrature no_ensemble
           (CrpsEnsemble (XArr obs_x) (XArr ens_x) PyNone false "member")
           "member" (Some []) None false ∅ _ eq_refl).
  - discriminate.
  - intros w H. discriminate.
  - reflexivity.
Defined.

(** ** Lengths of dimensions *)

Lemma lookup_dim_app (d : string) (l1 l2 : list (string * nat)) :
  lookup_dim d (l1 ++ l2)
  = match lookup_dim d l1 with
    | Some n => Some n
    | None => lookup_dim d l2
    end.
Proof.
  induction l1 as [| [d' m] l1 IH]; simpl; [reflexivity |].
  destruct (String.eqb d d'); [reflexivity | exact IH].
Qed.

Lemma unify_preserves (ds acc r : list (string * nat)) (d : string) (n : nat) :
  xr.unify acc ds = Ok r -> lookup_dim d acc = Some n -> lookup_dim d r = Some n.
Proof.
  revert acc. induction ds as [| [d0 n0] ds IH]; intros acc H Hl; simpl in H.
  - now injection H as <-.
  - destruct (lookup_dim d0 acc) as [m |] eqn:Hd0.
    + destruct (Nat.eqb n0 m); [| discriminate]. now apply (IH acc).
    + apply (IH _ H). now rewrite lookup_dim_app, Hl.
Qed.

Lemma unify_lookup (ds acc r : list (string * nat)) (d : string) (n : nat) :
  xr.unify acc ds = Ok r -> In (d, n) ds -> lookup_dim d r = Some n.
Proof.
  revert acc. induction ds as [| [d0 n0] ds IH]; intros acc H Hin; simpl in H.
  - destruct Hin.
  - destruct (lookup_dim d0 acc) as [m |] eqn:Hd0.
    + destruct (Nat.eqb n0 m) eqn:Hnm; [| discriminate].
      apply Nat.eqb_eq in Hnm. subst m.
      destruct Hin as [Heq | Hin]; [| now apply (IH acc)].
      injection Heq as <- <-. now apply (unify_preserves _ _ _ _ _ H).
    + destruct Hin as [Heq | Hin]; [| now apply (IH _ H)].
      injection Heq as <- <-. apply (unify_preserves _ _ _ _ _ H).
      rewrite lookup_dim_app, Hd0. simpl. now rewrite String.eqb_refl.
Qed.

Lemma unify_covered (ds acc : list (string * nat)) :
  (forall d n, In (d, n) ds -> lookup_dim d acc = Some n) ->
  xr.unify acc ds = Ok acc.
Proof.
  induction ds as [| [d0 n0] ds IH]; intros H; simpl; [reflexivity |].
  rewrite (H d0 n0) by now left. rewrite Nat.eqb_refl.
  apply IH. intros d n Hin. apply H. now right.
Qed.

Lemma unify_fresh (ds acc : list (string * nat)) :
  List.NoDup (acc ++ ds).*1 -> xr.unify acc ds = Ok (acc ++ ds).
Proof.
  revert acc. induction ds as [| [d0 n0] ds IH]; intros acc H; simpl.
  - now rewrite app_nil_r.
  - assert (Hd0 : ~ In d0 acc.*1).
    { rewrite fmap_app in H. simpl in H. apply List.NoDup_remove_2 in H.
      intros Hc. apply H. apply in_app_iff. now left. }
    rewrite (lookup_dim_None_fresh _ _ Hd0).
    replace (acc ++ (d0, n0) :: ds) with ((acc ++ [(d0, n0)]) ++ ds)
      by now rewrite <- app_assoc.
    apply IH. now rewrite <- app_assoc.
Qed.

Lemma lookup_dim_NoDup (l : list (string * nat)) (d : string) (n : nat) :
  List.NoDup l.*1 -> In (d, n) l -> lookup_dim d l = Some n.
Proof.
  induction l as [| [d' m] l IH]; simpl; intros Hnd Hin; [destruct Hin |].
  inversion Hnd as [| ? ? Hd' Hnd']; subst.
  destruct Hin as [Heq | Hin].
  - injection Heq as -> ->. now rewrite String.eqb_refl.
  - destruct (String.eqb d d') eqn:E; [| now apply IH].
    apply String.eqb_eq in E. subst d'. exfalso. apply Hd'.
    now apply (in_map fst) in Hin.
Qed.

Lemma unify_app (l1 l2 acc : list (string * nat)) :
  xr.unify acc (l1 ++ l2) = xr.unify acc l1 ≫= (fun r => xr.unify r l2).
Proof.
  revert acc. induction l1 as [| [d n] l1 IH]; intros acc; simpl; [reflexivity |].
  destruct (lookup_dim d acc) as [m |]; [| apply IH].
  destruct (Nat.eqb n m); [apply IH | reflexivity].
Qed.

(** An array's own dimensions unify to themselves when no name repeats. *)
Lemma unify_self (ds : list (string * nat)) :
  List.NoDup ds.*1 -> xr.unify [] ds = Ok ds /\ xr.unify ds ds = Ok ds.
Proof.
  intros H. split; [now apply (unify_fresh ds []) |].
  apply unify_covered. intros d n Hin. now apply lookup_dim_NoDup.
Qed.

Lemma dim_coords_None (a : DataArray) (k : string) :
  ~ In k (names a) -> xr.dim_coords a !! k = None.
Proof.
  intros H. destruct (xr.dim_coords a !! k) eqn:E; [| reflexivity].
  apply restrict_coords_lookup in E as [_ Hin]. contradiction.
Qed.

(** ** The dimension a list of thresholds adds *)

(** X6: with a list of n thresholds and reduction dimensions that do not name
    "threshold", a labeled-array result of threshold_brier_score (no
    weights) has "threshold" as its last dimension, of length n and
    labelled 1, 2, ..., n. *)
Theorem vector_threshold_dimension (observations forecasts : DataArray)
    (l : loc) (xs : list Qc) (h : heap) (issorted : bool) (member_dim : string)
    (ds : list string) (keep_attrs : bool) (r : DataArray) :
  h !! l = Some xs ->
  member_dim <> "threshold" ->
  ~ In "threshold" ds ->
  (threshold_brier_score (XArr observations) (XArr forecasts) (PyList l)
     issorted member_dim (Some ds) None keep_attrs h).1 = Ok (XArr r) ->
  (exists pre : list (string * nat),
      dims r = pre ++ [("threshold", length xs)] /\ ~ In "threshold" pre.*1)
  /\ coords r !! "threshold" = Some (np.arange 1 (length xs)).
Proof.
  intros Hl Hne Hds H.
  unfold threshold_brier_score, threshold_brier_score_res in H. cbn [fst] in H.
  rewrite (materialize_list _ _ _ Hl), sort_length in H.
  set (t := xr.assign_coord (xr.DataArray1 (py.sort xs) "threshold") "threshold"
              (np.arange 1 (length xs))) in H.
  cbn [route_threshold xdims] in H.
  change (mem "threshold" (names t)) with true in H.
  cbn [negb mbind result_bind fst snd operand_of operand_of_xobj] in H.
  invert_bind H as res Hres. unfold xr.apply_ufunc in Hres.
  cbn [xr.first_dataset omap head list_omap] in Hres.
  invert_bind Hres as r0 Hr0. injection Hres as <-.
  apply apply_dataarray_vfunc_Ok in Hr0 as (sizes & _ & Hsz & Hunexp & _ & ->).
  cbn [xr.arrays omap list_omap xr.unified_dim_sizes] in Hsz.
  invert_bind Hsz as acc1 H1. invert_bind Hsz as acc2 H2.
  invert_bind Hsz as acc3 H3. injection Hsz as ->.
  assert (Hn : lookup_dim "threshold" sizes = Some (length xs)).
  { apply (unify_lookup _ _ _ _ _ H3). cbn. rewrite sort_length. now left. }
  set (B := List.filter
              (fun dn : string * nat =>
                 negb (mem dn.1 (concat [[]; [member_dim]; ["threshold"]]
                                 ++ ["threshold"]))) sizes) in *.
  assert (HB : ~ In "threshold" B.*1).
  { intros Hin. apply in_map_iff in Hin as (dn & Heq & Hdn).
    apply filter_In in Hdn as [_ Hm]. rewrite Heq in Hm.
    replace (mem "threshold"
               (concat [[]; [member_dim]; ["threshold"]] ++ ["threshold"]))
      with true in Hm; [discriminate |].
    symmetry. apply mem_In. simpl. tauto. }
  assert (Hws : xr.with_sizes sizes ["threshold"] = [("threshold", length xs)]).
  { unfold xr.with_sizes. cbn [map]. now rewrite Hn. }
  rewrite Hws in H.
  cbn [xr.unexpected_dims] in Hunexp.
  apply app_eq_nil in Hunexp as [Hu_obs Hunexp].
  apply app_eq_nil in Hunexp as [Hu_fc _].
  apply absent_nil_incl in Hu_obs, Hu_fc.
  assert (Hno : ~ In "threshold" (names observations)).
  { intros Hin. apply Hu_obs, in_app_iff in Hin as [Hin | []]. contradiction. }
  assert (Hnf : ~ In "threshold" (names forecasts)).
  { intros Hin. apply Hu_fc, in_app_iff in Hin as [Hin | [Heq | []]];
      [contradiction | contradiction]. }
  unfold xr.mean, xr.DataArray_mean in H. cbn [xr.reduce_names] in H.
  invert_bind H as r1 Hr1. injection H as <-.
  destruct (xr.absent _ ds); [| discriminate]. injection Hr1 as <-.
  assert (Hk : xr.kept ds (B ++ [("threshold", length xs)])
               = xr.kept ds B ++ [("threshold", length xs)]).
  { now rewrite kept_app, (kept_single _ _ _ Hds). }
  split.
  - exists (xr.kept ds B). cbn [xr.mean_over build dims]. split; [exact Hk |].
    intros Hin. now apply kept_incl in Hin.
  - cbn [xr.mean_over build dims coords]. rewrite Hk.
    apply restrict_coords_lookup. split.
    2:{ rewrite fmap_app, in_app_iff. right. now left. }
    apply restrict_coords_lookup. split.
    2:{ rewrite fmap_app, in_app_iff. right. now left. }
    cbn [xr.all_coords xr.arrays omap list_omap foldr].
    rewrite !lookup_union, (dim_coords_None _ _ Hno), (dim_coords_None _ _ Hnf).
    assert (Ht : xr.dim_coords t !! "threshold" = Some (np.arange 1 (length xs))).
    { apply restrict_coords_lookup. split; [apply lookup_insert_eq |].
      simpl. now left. }
    now rewrite Ht.
Qed.

Lemma vector_threshold_dimension_witness :
  exists r : DataArray,
    (threshold_brier_score (XArr obs_two) (XArr members_123) (PyList 1%positive)
       false "member" (Some []) None false heap_thresholds).1 = Ok (XArr r)
    /\ (exists pre : list (string * nat),
           dims r = pre ++ [("threshold", 2%nat)] /\ ~ In "threshold" pre.*1)
    /\ coords r !! "threshold" = Some [1%Z; 2%Z].
Proof.
  eexists. split; [reflexivity |].
  apply (vector_threshold_dimension obs_two members_123 1%positive
           [Q2Qc (5 # 2); Q2Qc (3 # 2)] heap_thresholds false "member" []
           false _ eq_refl).
  - discriminate.
  - intros [].
  - reflexivity.
Defined.

(** ** Cell by cell *)

Lemma operand_of_plain (v : pyval) : isinstance_xr v = false -> operand_of v = OVal v.
Proof. destruct v as [| | | | | | | | x]; try reflexivity. discriminate. Qed.

Lemma filter_no_core (ds : list (string * nat)) :
  List.filter (fun dn : string * nat => negb (mem dn.1 [])) ds = ds.
Proof. apply filter_all. reflexivity. Qed.

Lemma cells_single {A : Type} (f : env -> A) (d : string) (n : nat) (e : env) :
  map f (cells [(d, n)] e) = map (fun i => f (upd e d i)) (seq 0 n).
Proof.
  simpl. induction (seq 0 n) as [| i l IH]; simpl; [reflexivity |].
  now rewrite IH.
Qed.

Lemma env_of_agree (ns : list string) (e : env) :
  agree_on ns (env_of ns (map e ns)) e.
Proof. intros d Hd. now apply env_of_map. Qed.

Section CellByCell.

Variable ps_crps_quadrature : fval -> karg -> karg -> karg -> karg -> result fval.
Variable ps_crps_ensemble : fval -> list fval -> pyval -> bool -> result fval.

(** X7: the array [res] that crps_quadrature goes on to reduce has the
    dimensions of [x]; its cell at every position holds what the kernel
    returns for the value of [x] there, with cdf_or_dist, xmin, xmax and
    tol handed over as they were given. *)
Theorem crps_quadrature_cellwise (x : DataArray) (cdf_or_dist xmin xmax tol : pyval)
    (keep_attrs : bool) (r : DataArray) :
  List.NoDup (names x) ->
  isinstance_xr cdf_or_dist = false ->
  isinstance_xr xmin = false ->
  isinstance_xr xmax = false ->
  isinstance_xr tol = false ->
  crps_quadrature_res ps_crps_quadrature (XArr x) cdf_or_dist xmin xmax tol
    keep_attrs = Ok (XArr r) ->
  dims r = dims x
  /\ forall e : env,
       In e (cells (dims x) (fun _ => 0%nat)) ->
       ps_crps_quadrature (read x e) (KObj cdf_or_dist) (KObj xmin) (KObj xmax)
         (KObj tol) = Ok (read r e).
Proof.
  intros Hnd Hc Hmin Hmax Htol H. unfold crps_quadrature_res in H.
  rewrite !operand_of_plain in H by assumption.
  unfold xr.apply_ufunc in H.
  cbn [operand_of_xobj xr.first_dataset omap head list_omap] in H.
  invert_bind H as r0 Hr0. injection H as <-.
  apply apply_dataarray_vfunc_Ok in Hr0 as (sizes & _ & Hsz & _ & Hfe & ->).
  cbn [xr.arrays omap list_omap xr.unified_dim_sizes] in Hsz.
  rewrite (proj1 (unify_self _ Hnd)) in Hsz. injection Hsz as <-.
  cbn [concat app] in *. rewrite filter_no_core in *.
  cbn [xr.with_sizes map] in *. rewrite app_nil_r.
  split; [reflexivity |]. intros e He.
  destruct (first_error_None _ _ Hfe e He) as [v Hv].
  cbn [xr.gather_all xr.gather k_crps_quadrature] in Hv.
  rewrite read_build. cbn [xr.gather_all xr.gather k_crps_quadrature].
  fold (names x). rewrite (read_agree x _ e (env_of_agree _ e)).
  destruct (ps_crps_quadrature (read x e) (KObj cdf_or_dist) (KObj xmin)
              (KObj xmax) (KObj tol)) as [y | err]; [reflexivity | discriminate].
Qed.

(** X8: the array [res] that crps_ensemble goes on to reduce, for forecasts
    that have the dimensions of the observations followed by the member
    dimension, has the dimensions of the observations; its cell at every
    position holds what the kernel returns for the observation there and
    the forecast members there in member order. *)
Theorem crps_ensemble_cellwise (observations forecasts : DataArray)
    (member_weights : pyval) (issorted : bool) (member_dim : string) (n : nat)
    (keep_attrs : bool) (r : DataArray) :
  dims forecasts = dims observations ++ [(member_dim, n)] ->
  List.NoDup (names forecasts) ->
  crps_ensemble_res ps_crps_ensemble (XArr observations) (XArr forecasts)
    member_weights issorted member_dim keep_attrs = Ok (XArr r) ->
  dims r = dims observations
  /\ forall e : env,
       In e (cells (dims observations) (fun _ => 0%nat)) ->
       ps_crps_ensemble (read observations e)
         (map (fun i => read forecasts (upd e member_dim i)) (seq 0 n))
         member_weights issorted
       = Ok (read r e).
Proof.
  intros Hdims Hnd H. unfold crps_ensemble_res, xr.apply_ufunc in H.
  cbn [operand_of_xobj xr.first_dataset omap head list_omap] in H.
  invert_bind H as r0 Hr0. injection H as <-.
  apply apply_dataarray_vfunc_Ok in Hr0 as (sizes & _ & Hsz & _ & Hfe & ->).
  assert (Hnames : names forecasts = names observations ++ [member_dim]).
  { unfold names. now rewrite Hdims, fmap_app. }
  rewrite Hnames in Hnd.
  assert (Hm : ~ In member_dim (names observations)).
  { apply List.NoDup_remove_2 in Hnd. now rewrite app_nil_r in Hnd. }
  assert (Hnd_o : List.NoDup (names observations)).
  { apply List.NoDup_remove_1 in Hnd. now rewrite app_nil_r in Hnd. }
  cbn [xr.arrays omap list_omap xr.unified_dim_sizes] in Hsz.
  rewrite (proj1 (unify_self _ Hnd_o)) in Hsz. cbn [mbind result_bind] in Hsz.
  rewrite Hdims, unify_app, (proj2 (unify_self _ Hnd_o)) in Hsz.
  cbn [mbind result_bind] in Hsz. rewrite unify_fresh in Hsz.
  2:{ now rewrite fmap_app. }
  injection Hsz as <-.
  assert (HB : List.filter
                 (fun dn : string * nat =>
                    negb (mem dn.1 (concat [[]; [member_dim]] ++ [])))
                 (dims observations ++ [(member_dim, n)])
               = dims observations).
  { rewrite List.filter_app.
    replace (List.filter _ [(member_dim, n)]) with (@nil (string * nat)).
    2:{ symmetry. apply filter_none. intros dn [<- | []]. simpl.
        unfold mem. simpl. now rewrite String.eqb_refl. }
    rewrite app_nil_r. apply filter_all. intros dn Hdn.
    destruct (mem dn.1 (concat [[]; [member_dim]] ++ [])) eqn:E; [| reflexivity].
    apply mem_In in E. simpl in E. destruct E as [E | []].
    exfalso. apply Hm. rewrite E. now apply In_names. }
  rewrite HB in *. cbn [xr.with_sizes map]. rewrite app_nil_r.
  split; [reflexivity |]. intros e He.
  assert (Hrun : forall e' : env,
            k_crps_ensemble ps_crps_ensemble member_weights issorted
              (xr.gather_all (dims observations ++ [(member_dim, n)]) e'
                 [OArr observations; OArr forecasts] [[]; [member_dim]])
            = ps_crps_ensemble (read observations e')
                (map (fun i => read forecasts (upd e' member_dim i)) (seq 0 n))
                member_weights issorted
              ≫= (fun y => Ok (KNum y))).
  { intros e'. cbn [xr.gather_all xr.gather k_crps_ensemble].
    unfold xr.with_sizes. cbn [map].
    rewrite (lookup_dim_app_fresh _ _ _ Hm). cbn [default].
    now rewrite cells_single. }
  destruct (first_error_None _ _ Hfe e He) as [v Hv]. rewrite Hrun in Hv.
  rewrite read_build, Hrun. fold (names observations).
  set (E := env_of (names observations) (map e (names observations))).
  assert (HE : agree_on (names observations) E e) by apply env_of_agree.
  rewrite (read_agree observations E e HE).
  assert (Hfc : map (fun i => read forecasts (upd E member_dim i)) (seq 0 n)
                = map (fun i => read forecasts (upd e member_dim i)) (seq 0 n)).
  { apply map_ext. intros i. apply read_agree. intros d Hd.
    rewrite Hnames in Hd. apply in_app_iff in Hd as [Hd | [<- | []]].
    - rewrite !upd_other by (intros ->; contradiction). now apply HE.
    - now rewrite !upd_same. }
  rewrite Hfc.
  destruct (ps_crps_ensemble _ _ _ _) as [y | err]; [reflexivity | discriminate].
Qed.

End CellByCell.

Lemma crps_quadrature_cellwise_witness :
  exists r : DataArray,
    crps_quadrature_res no_quadrature (XArr obs_x) PyNone PyNone PyNone PyNone false
    = Ok (XArr r)
    /\ dims r = dims obs_x
    /\ forall e : env,
         In e (cells (dims obs_x) (fun _ => 0%nat)) ->
         no_quadrature (read obs_x e) (KObj PyNone) (KObj PyNone) (KObj PyNone)
           (KObj PyNone) = Ok (read r e).
Proof.
  eexists. split; [reflexivity |].
  apply (crps_quadrature_cellwise no_quadrature obs_x PyNone PyNone PyNone PyNone
           false); try reflexivity.
  repeat constructor. simpl. tauto.
Defined.

Lemma crps_ensemble_cellwise_witness :
  exists r : DataArray,
    crps_ensemble_res no_ensemble (XArr obs_x) (XArr ens_x) PyNone false "member"
      false = Ok (XArr r)
    /\ dims r = dims obs_x
    /\ forall e : env,
         In e (cells (dims obs_x) (fun _ => 0%nat)) ->
         no_ensemble (read obs_x e)
           (map (fun i => read ens_x (upd e "member" i)) (seq 0 2)) PyNone false
         = Ok (read r e).
Proof.
  eexists. split; [reflexivity |].
  apply (crps_ensemble_cellwise no_ensemble obs_x ens_x PyNone false "member" 2
           false); try reflexivity.
  repeat constructor; simpl; [intros [H | []]; discriminate | tauto].
Defined.

(** ** The Brier score *)








(** ** Plain numbers as the parameters of the Gaussian *)

Lemma normalize_scalar (a b : DataArray) (ab : xobj * xobj) :
  List.NoDup (names a) ->
  dims b = [] ->
  (if bool_decide (TupleDims (names b) ≠ TupleDims (names a))
   then xr.broadcast (XArr a) (XArr b)
   else Ok (XArr a, XArr b)) = Ok ab ->
  exists a' b' : DataArray,
    ab = (XArr a', XArr b') /\ dims a' = dims a /\ dims b' = dims a
    /\ (forall e, read a' e = read a e /\ read b' e = read b e).
Proof.
  intros Hnd Hb. case_bool_decide as Hne; intros H.
  - unfold xr.broadcast in H. cbn [xr.arrays_of app xr.unified_dim_sizes] in H.
    rewrite (proj1 (unify_self _ Hnd)), Hb in H.
    cbn [mbind result_bind xr.unify xr.set_dims] in H. injection H as <-.
    do 2 eexists. split; [reflexivity |]. split; [reflexivity |].
    split; [reflexivity |].
    intros e. split; apply read_set_dims.
    + apply incl_refl.
    + unfold names. rewrite Hb. intros d [].
  - injection H as <-. exists a, b.
    assert (Heq : names b = names a) by now injection Hne.
    split; [reflexivity |]. split; [reflexivity |]. split; [| tauto].
    unfold names in Heq. rewrite Hb in Heq. simpl in Heq.
    destruct (dims a); [assumption | discriminate].
Qed.

Section ScalarGaussian.

Variable ps_crps_gaussian : fval -> fval -> fval -> result fval.

(** X11: with plain numbers for mu and sig, the array [res] that crps_gaussian
    goes on to reduce has the dimensions of the observations, and its cell
    at every position holds what the kernel returns for the observation
    there and those two numbers. *)
Theorem crps_gaussian_scalar_parameters (observations : DataArray)
    (mu sig : pyval) (keep_attrs : bool) (r : DataArray) :
  List.NoDup (names observations) ->
  isinstance_int_float mu = true ->
  isinstance_int_float sig = true ->
  crps_gaussian_res ps_crps_gaussian (PyXr (XArr observations)) mu sig keep_attrs
  = Ok (XArr r) ->
  dims r = dims observations
  /\ forall e : env,
       In e (cells (dims observations) (fun _ => 0%nat)) ->
       ps_crps_gaussian (read observations e) (float_of mu) (float_of sig)
       = Ok (read r e).
Proof.
  intros Hnd Hmu Hsig H. unfold crps_gaussian_res in H.
  invert_bind H as oms Hn. unfold shape_normalizer in Hn.
  rewrite Hmu, Hsig in Hn.
  cbn [getattr_dims as_xobj mbind result_bind] in Hn.
  invert_bind Hn as om Hom.
  apply normalize_scalar in Hom as (o1 & m1 & -> & Hd1 & Hdm & Hr1);
    [| assumption | reflexivity].
  cbn [fst snd getattr_dims as_xobj mbind result_bind] in Hn.
  invert_bind Hn as os Hos.
  assert (Hnd1 : List.NoDup (names o1)) by (unfold names; now rewrite Hd1).
  apply normalize_scalar in Hos as (o2 & s2 & -> & Hd2 & Hds & Hr2);
    [| assumption | reflexivity].
  injection Hn as <-. cbn [fst snd operand_of_xobj] in H.
  rewrite Hd1 in Hd2, Hds.
  assert (Hnames : forall a : DataArray,
            dims a = dims observations -> names a = names observations).
  { intros a Ha. unfold names. now rewrite Ha. }
  unfold xr.apply_ufunc in H.
  cbn [xr.first_dataset omap head list_omap] in H.
  invert_bind H as r0 Hr0. injection H as <-.
  apply apply_dataarray_vfunc_Ok in Hr0 as (sizes & _ & Hsz & _ & Hfe & ->).
  cbn [xr.arrays omap list_omap xr.unified_dim_sizes] in Hsz.
  rewrite Hd2, Hdm, Hds in Hsz.
  rewrite (proj1 (unify_self _ Hnd)) in Hsz. cbn [mbind result_bind] in Hsz.
  repeat (rewrite (proj2 (unify_self _ Hnd)) in Hsz;
          cbn [mbind result_bind] in Hsz).
  injection Hsz as <-.
  cbn [concat app] in *. rewrite filter_no_core in *.
  cbn [xr.with_sizes map] in *. rewrite app_nil_r.
  split; [reflexivity |].
  assert (Hrun : forall c : env,
            k_crps_gaussian ps_crps_gaussian
              (xr.gather_all (dims observations) c [OArr o2; OArr m1; OArr s2]
                 [[]; []; []])
            = ps_crps_gaussian (read observations c) (float_of mu) (float_of sig)
              ≫= (fun x => Ok (KNum x))).
  { intros c. cbn [xr.gather_all xr.gather k_crps_gaussian].
    rewrite (proj1 (Hr2 c)), (proj1 (Hr1 c)), (proj2 (Hr1 c)), (proj2 (Hr2 c)).
    reflexivity. }
  intros e He.
  destruct (first_error_None _ _ Hfe e He) as [v Hv]. rewrite Hrun in Hv.
  rewrite read_build, Hrun. fold (names observations).
  rewrite (read_agree observations _ e (env_of_agree _ e)).
  destruct (ps_crps_gaussian _ _ _) as [y | err]; [reflexivity | discriminate].
Qed.

End ScalarGaussian.

Lemma crps_gaussian_scalar_parameters_witness :
  exists r : DataArray,
    crps_gaussian_res no_gaussian (PyXr (XArr obs_x)) (PyInt 0)
      (PyFloat (Fin (Qc_of_Z 1))) false = Ok (XArr r)
    /\ dims r = dims obs_x
    /\ forall e : env,
         In e (cells (dims obs_x) (fun _ => 0%nat)) ->
         no_gaussian (read obs_x e) (float_of (PyInt 0))
           (float_of (PyFloat (Fin (Qc_of_Z 1)))) = Ok (read r e).
Proof.
  eexists. split; [reflexivity |].
  apply (crps_gaussian_scalar_parameters no_gaussian obs_x (PyInt 0)
           (PyFloat (Fin (Qc_of_Z 1))) false); try reflexivity.
  repeat constructor. simpl. tauto.
Defined.

(** ** Datasets stay Datasets *)

Lemma mapM_keys {A B K : Type} (f : A -> result (K * B)) (k : A -> K)
    (l : list A) (vs : list (K * B)) :
  (forall x v, f x = Ok v -> v.1 = k x) ->
  mapM f l = Ok vs -> vs.*1 = map k l.
Proof.
  intros Hk. revert vs. induction l as [| x l IH]; simpl; intros vs H.
  - now injection H as <-.
  - invert_bind H as v Hv. invert_bind H as bs Hbs. injection H as <-.
    cbn [fmap list_fmap map]. f_equal; [exact (Hk _ _ Hv) | exact (IH _ Hbs)].
Qed.

Lemma map_keys_preserved {K A B : Type} (g : K * A -> B) (l : list (K * A)) :
  (map (fun nv => (nv.1, g nv)) l).*1 = l.*1.
Proof.
  induction l as [| nv l IH]; [reflexivity |].
  cbn [map fmap list_fmap]. f_equal. exact IH.
Qed.

Lemma apply_ufunc_first_dataset (func : list karg -> result karg) (d : Dataset)
    (args : list operand) (icd : list (list string)) (ocd : list string)
    (keep_attrs : bool) (r : xobj) :
  xr.apply_ufunc func (OSet d :: args) icd ocd keep_attrs = Ok r ->
  exists d' : Dataset,
    r = XSet d' /\ xr.var_names d' = xr.var_names d
    /\ ds_attrs d' = if keep_attrs then ds_attrs d else ∅.
Proof.
  unfold xr.apply_ufunc.
  cbn [xr.first_dataset omap head list_omap]. intros H.
  invert_bind H as vars Hvars. injection H as <-.
  eexists. split; [reflexivity |]. split; [| reflexivity].
  unfold xr.var_names at 1. cbn [data_vars].
  apply (mapM_keys _ (fun n => n)) in Hvars; [now rewrite Hvars, map_id |].
  intros n v Hv. invert_bind Hv as args' Ha. invert_bind Hv as a Hr.
  now injection Hv as <-.
Qed.

Lemma mean_dataset (d : Dataset) (dim : option (list string)) (keep_attrs : bool)
    (r : xobj) :
  xr.mean (XSet d) dim keep_attrs = Ok r ->
  exists d' : Dataset,
    r = XSet d' /\ xr.var_names d' = xr.var_names d
    /\ ds_attrs d' = if keep_attrs then ds_attrs d else ∅.
Proof.
  cbn [xr.mean]. intros H. invert_bind H as d' Hd. injection H as <-.
  exists d'. split; [reflexivity |].
  unfold xr.Dataset_mean in Hd.
  destruct (xr.absent _ _); [| discriminate]. injection Hd as <-.
  split; [| reflexivity].
  unfold xr.var_names. cbn [data_vars]. apply map_keys_preserved.
Qed.

Lemma weighted_mean_dataset (d : Dataset) (w : DataArray)
    (dim : option (list string)) (keep_attrs : bool) (r : xobj) :
  xr.weighted_mean (XSet d) w dim keep_attrs = Ok r ->
  exists d' : Dataset,
    r = XSet d' /\ xr.var_names d' = xr.var_names d
    /\ ds_attrs d' = if keep_attrs then ds_attrs d else ∅.
Proof.
  cbn [xr.weighted_mean]. intros H. invert_bind H as d' Hd. injection H as <-.
  exists d'. split; [reflexivity |].
  unfold xr.Dataset_weighted_mean in Hd.
  destruct (xr.has_nan w); [discriminate |].
  destruct (xr.absent _ _); [| discriminate].
  invert_bind Hd as vars Hvars. injection Hd as <-.
  split; [| reflexivity].
  unfold xr.var_names. cbn [data_vars].
  apply (mapM_keys _ fst _ _) in Hvars; [exact Hvars |].
  intros nv v Hv. invert_bind Hv as all Hall. now injection Hv as <-.
Qed.

Lemma broadcast_first_dataset (d : Dataset) (b x y : xobj) :
  xr.broadcast (XSet d) b = Ok (x, y) ->
  exists d' : Dataset,
    x = XSet d' /\ xr.var_names d' = xr.var_names d /\ ds_attrs d' = ds_attrs d.
Proof.
  unfold xr.broadcast. intros H. invert_bind H as ds Hds. injection H as <- <-.
  cbn [xr.set_dims]. eexists. split; [reflexivity |]. split; [| reflexivity].
  unfold xr.var_names. cbn [data_vars]. apply map_keys_preserved.
Qed.

Lemma shape_normalizer_first_dataset (d : Dataset) (mu sig : pyval)
    (oms : xobj * xobj * xobj) :
  shape_normalizer (PyXr (XSet d)) mu sig = Ok oms ->
  exists d' : Dataset,
    oms.1.1 = XSet d' /\ xr.var_names d' = xr.var_names d
    /\ ds_attrs d' = ds_attrs d.
Proof.
  unfold shape_normalizer. intros H.
  invert_bind H as mu_dims Hmd. invert_bind H as obs_dims Hod.
  invert_bind H as mu' Hmu. invert_bind H as obs' Hobs.
  invert_bind H as om Hom. invert_bind H as sig_dims Hsd.
  invert_bind H as obs_dims' Hod'. invert_bind H as sig' Hsig.
  invert_bind H as os Hos. injection H as <-. simpl.
  injection Hobs as <-.
  assert (H1 : exists d1 : Dataset,
            om.1 = XSet d1 /\ xr.var_names d1 = xr.var_names d
            /\ ds_attrs d1 = ds_attrs d).
  { destruct (bool_decide _) in Hom.
    - destruct om as [x y]. now apply broadcast_first_dataset in Hom.
    - injection Hom as <-. simpl. eauto. }
  destruct H1 as (d1 & Hx & Hv1 & Ha1). rewrite Hx in Hos.
  destruct (bool_decide _) in Hos.
  - destruct os as [x y].
    apply broadcast_first_dataset in Hos as (d2 & -> & Hv2 & Ha2).
    simpl. exists d2. split; [reflexivity |]. split; congruence.
  - injection Hos as <-. simpl. eauto.
Qed.

Section Containers.

Variable ps_crps_gaussian : fval -> fval -> fval -> result fval.
Variable ps_crps_quadrature : fval -> karg -> karg -> karg -> karg -> result fval.
Variable ps_crps_ensemble : fval -> list fval -> pyval -> bool -> result fval.

Lemma kernel_stage_dataset (c : call) (keep_attrs : bool) (h : heap)
    (d : Dataset) (res : xobj) :
  first_input c = PyXr (XSet d) ->
  (kernel_stage ps_crps_gaussian ps_crps_quadrature ps_crps_ensemble c
     keep_attrs h).1 = Ok res ->
  exists d' : Dataset,
    res = XSet d' /\ xr.var_names d' = xr.var_names d
    /\ ds_attrs d' = if keep_attrs then ds_attrs d else ∅.
Proof.
  destruct c as [o mu sig | x cdf xmin xmax tol | o f mw s m | o f | o f t s m];
    simpl; intros Hfirst H; [subst o | injection Hfirst as -> ..].
  - unfold crps_gaussian_res in H. invert_bind H as oms Hn.
    apply shape_normalizer_first_dataset in Hn as (d1 & Hoa & Hv & Ha).
    rewrite Hoa in H. apply apply_ufunc_first_dataset in H as (d' & -> & Hv' & Ha').
    exists d'. split; [reflexivity |]. split; [congruence |].
    now rewrite Ha', Ha.
  - now apply apply_ufunc_first_dataset in H.
  - now apply apply_ufunc_first_dataset in H.
  - now apply apply_ufunc_first_dataset in H.
  - invert_bind H as core_dims Hr. now apply apply_ufunc_first_dataset in H.
Qed.

(** X12: given a Dataset as its first input, each of the five operations, when
    it returns, returns a Dataset with the same data variables in the same
    order, whatever dim and weights are; its attributes are those of the
    input when keep_attrs is set and none otherwise. *)
Theorem dataset_in_dataset_out (c : call) (d : Dataset)
    (dim : option (list string)) (weights : option DataArray)
    (keep_attrs : bool) (h : heap) (r : xobj) :
  first_input c = PyXr (XSet d) ->
  (run ps_crps_gaussian ps_crps_quadrature ps_crps_ensemble c dim weights
     keep_attrs h).1 = Ok r ->
  exists d' : Dataset,
    r = XSet d' /\ xr.var_names d' = xr.var_names d
    /\ ds_attrs d' = if keep_attrs then ds_attrs d else ∅.
Proof.
  intros Hfirst H. rewrite run_kernel_then_reduce in H. cbn [fst] in H.
  invert_bind H as res Hres.
  apply (kernel_stage_dataset _ _ _ _ _ Hfirst) in Hres as (d1 & -> & Hv1 & Ha1).
  destruct weights as [w |].
  - apply weighted_mean_dataset in H as (d2 & -> & Hv2 & Ha2).
    exists d2. split; [reflexivity |]. split; [congruence |].
    rewrite Ha2, Ha1. now destruct keep_attrs.
  - apply mean_dataset in H as (d2 & -> & Hv2 & Ha2).
    exists d2. split; [reflexivity |]. split; [congruence |].
    rewrite Ha2, Ha1. now destruct keep_attrs.
Qed.

End Containers.

Lemma dataset_in_dataset_out_witness :
  exists r : xobj,
    (run no_gaussian no_quadrature no_ensemble
       (BrierScore (XSet obs_set) (XArr prob_x)) None None true ∅).1 = Ok r
    /\ exists d' : Dataset,
         r = XSet d' /\ xr.var_names d' = xr.var_names obs_set
         /\ ds_attrs d' = ds_attrs obs_set.
Proof.
  eexists. split; [reflexivity |].
  apply (dataset_in_dataset_out no_gaussian no_quadrature no_ensemble
           (BrierScore (XSet obs_set) (XArr prob_x)) obs_set None None true ∅).
  - reflexivity.
  - reflexivity.
Defined.

(** ** Averaging over the member dimension *)

Section MemberReduction.

Variable ps_crps_gaussian : fval -> fval -> fval -> result fval.
Variable ps_crps_quadrature : fval -> karg -> karg -> karg -> karg -> result fval.
Variable ps_crps_ensemble : fval -> list fval -> pyval -> bool -> result fval.

Lemma kernel_stage_without_member (c : call) (member_dim : string)
    (keep_attrs : bool) (h : heap) (res : DataArray) :
  member_dim_of c = Some member_dim ->
  member_dim <> "threshold" ->
  (kernel_stage ps_crps_gaussian ps_crps_quadrature ps_crps_ensemble c
     keep_attrs h).1 = Ok (XArr res) ->
  ~ In member_dim (names res).
Proof.
  intros Hc Hne Hres Ha.
  destruct c as [o mu sig | x cdf xmin xmax tol | o f mw s m | o f | o f t s m];
    try discriminate; injection Hc as ->; cbn [kernel_stage fst] in Hres.
  - destruct (apply_ufunc_names _ _ _ _ _ _ _ Hres Ha) as [[] | Hc].
    apply Hc. simpl. now left.
  - unfold threshold_brier_score_res in Hres. cbn [fst] in Hres.
    invert_bind Hres as core_dims Hroute.
    destruct (apply_ufunc_names _ _ _ _ _ _ _ Hres Ha) as [Ho | Hc];
      apply route_threshold_Ok in Hroute as [-> | ->]; cbn [fst snd] in *.
    + destruct Ho as [Heq | []]. now symmetry in Heq.
    + destruct Ho.
    + apply Hc. simpl. tauto.
    + apply Hc. simpl. tauto.
Qed.

(** X13: the member dimension cannot be named among the dimensions to average
    over: the kernel has already consumed it, so when the kernel stage of
    crps_ensemble or threshold_brier_score yields a labeled array and
    [dim] lists [member_dim], the unweighted call ends with the error of
    reducing over a dimension that is not there. *)
Theorem member_dim_cannot_be_averaged (c : call) (member_dim : string)
    (ds : list string) (keep_attrs : bool) (h : heap) (res : DataArray) :
  member_dim_of c = Some member_dim ->
  member_dim <> "threshold" ->
  In member_dim ds ->
  (kernel_stage ps_crps_gaussian ps_crps_quadrature ps_crps_ensemble c
     keep_attrs h).1 = Ok (XArr res) ->
  exists d : string,
    In d ds /\ ~ In d (names res)
    /\ (run ps_crps_gaussian ps_crps_quadrature ps_crps_ensemble c (Some ds)
          None keep_attrs h).1 = Err (ReduceDimensionError d).
Proof.
  intros Hc Hne Hin Hres.
  pose proof (kernel_stage_without_member _ _ _ _ _ Hc Hne Hres) as Hno.
  rewrite run_kernel_then_reduce. cbn [fst]. rewrite Hres.
  cbn [mbind result_bind xr.mean]. unfold xr.DataArray_mean.
  cbn [xr.reduce_names].
  destruct (xr.absent (names res) ds) as [| d l] eqn:E.
  - exfalso. apply Hno. now apply (absent_nil_incl _ _ E).
  - exists d.
    assert (Hd : In d (xr.absent (names res) ds)) by (rewrite E; now left).
    unfold xr.absent in Hd. apply filter_In in Hd as [Hd1 Hd2].
    split; [assumption |]. split; [| reflexivity].
    apply mem_not_In. now destruct (mem d (names res)).
Qed.

End MemberReduction.

Lemma member_dim_cannot_be_averaged_witness :
  exists res : DataArray,
    (kernel_stage no_gaussian no_quadrature no_ensemble
       (CrpsEnsemble (XArr obs_x) (XArr ens_x) PyNone false "member") false ∅).1
    = Ok (XArr res)
    /\ exists d : string,
         In d ["x"; "member"] /\ ~ In d (names res)
         /\ (run no_gaussian no_quadrature no_ensemble
               (CrpsEnsemble (XArr obs_x) (XArr ens_x) PyNone false "member")
               (Some ["x"; "member"]) None false ∅).1
            = Err (ReduceDimensionError d).
Proof.
  eexists. split; [reflexivity |].
  apply (member_dim_cannot_be_averaged no_gaussian no_quadrature no_ensemble
           (CrpsEnsemble (XArr obs_x) (XArr ens_x) PyNone false "member")
           "member" ["x"; "member"] false ∅ _ eq_refl).
  - discriminate.
  - simpl. tauto.
  - reflexivity.
Defined.
